(** * sapience-bot: a shallow embedding of the trading bot and its checked properties

    The bot is one TypeScript file: [fetchNextClosingMarket], [getPrediction],
    [getQuote], [trade] and the top-level async block (called [main] here).
    Pure parts are Rocq functions; the network, the chain, the clock and the
    console are an explicit [World] of oracles together with a trace of
    [Event]s, threaded by a small writer/error monad. *)

From Stdlib Require Import ZArith List String Ascii Bool Lia.
From ExtLib Require Import Structures.Monad.
Import ListNotations.
Import MonadNotation.

Local Open Scope string_scope.
Local Open Scope Z_scope.
Local Open Scope monad_scope.

(** ** JavaScript strings

    Text is held as a Rocq [string]: the ASCII range is exact, anything else
    is the UTF-8 encoding of the character, whose bytes are all above 127.
    Case mapping and white space are modelled on the ASCII range; no
    character outside it lower-cases to a letter of [yes] or [no]. *)
Module JsString.

Definition code (c : ascii) : Z := Z.of_N (N_of_ascii c).

(** White space as [String.prototype.trim] sees it (TAB, LF, VT, FF, CR, SP). *)
Definition isWhiteSpace (c : ascii) : bool :=
  ((9 <=? code c) && (code c <=? 13)) || (code c =? 32).

Definition lowerChar (c : ascii) : ascii :=
  if (65 <=? code c) && (code c <=? 90)
  then ascii_of_N (N_of_ascii c + 32)
  else c.

(** [String.prototype.toLowerCase] *)
Fixpoint toLowerCase (s : string) : string :=
  match s with
  | EmptyString => EmptyString
  | String c s' => String (lowerChar c) (toLowerCase s')
  end.

Fixpoint trimStart (s : string) : string :=
  match s with
  | EmptyString => EmptyString
  | String c s' => if isWhiteSpace c then trimStart s' else s
  end.

Definition isEmpty (s : string) : bool :=
  match s with EmptyString => true | String _ _ => false end.

Fixpoint trimEnd (s : string) : string :=
  match s with
  | EmptyString => EmptyString
  | String c s' =>
      let r := trimEnd s' in
      if isWhiteSpace c && isEmpty r then EmptyString else String c r
  end.

(** [String.prototype.trim] *)
Definition trim (s : string) : string := trimEnd (trimStart s).

(** [String.prototype.startsWith] *)
Fixpoint startsWith (p s : string) : bool :=
  match p, s with
  | EmptyString, _ => true
  | String a p', String b s' => Ascii.eqb a b && startsWith p' s'
  | String _ _, EmptyString => false
  end.

(** [String.prototype.includes]: does [p] occur in [s] at some position. *)
Fixpoint includes (p s : string) : bool :=
  startsWith p s ||
  match s with
  | EmptyString => false
  | String _ s' => includes p s'
  end.

(** The declarative reading of "[s] contains the substring [p]". *)
Definition Substring (p s : string) : Prop :=
  exists pre post, s = pre ++ p ++ post.

Fixpoint noWhiteSpace (p : string) : bool :=
  match p with
  | EmptyString => true
  | String c p' => negb (isWhiteSpace c) && noWhiteSpace p'
  end.

(** The double-quote character, for messages that quote a word. *)
Definition dquote : string := String (ascii_of_N 34) EmptyString.

End JsString.
Import JsString.

(** ** Numbers and their decimal text *)
Module JsNumber.

(** The values a JavaScript number takes in this program. *)
Inductive Num : Type :=
| Fin (z : Z)
| Infinity
| NaN.

(** The [<] of two numbers; any comparison with [NaN] is false. *)
Definition lt (a b : Num) : bool :=
  match a, b with
  | Fin x, Fin y => x <? y
  | Fin _, Infinity => true
  | _, _ => false
  end.

Definition digitChar (d : Z) : ascii := ascii_of_N (Z.to_N (48 + d)).

(** Decimal digits of a non-negative integer, most significant first,
    pushed in front of [acc]. [fuel] bounds the number of digits. *)
Fixpoint digitsFrom (fuel : nat) (n : Z) (acc : string) : string :=
  match fuel with
  | O => acc
  | S f =>
      let acc' := String (digitChar (n mod 10)) acc in
      if n <? 10 then acc' else digitsFrom f (n / 10) acc'
  end.

Definition natToString (n : Z) : string :=
  digitsFrom (S (Z.to_nat (Z.log2 n))) n EmptyString.

(** [toString] of a bigint, and of a number holding an integer of
    magnitude below 10^21 (every GraphQL [Int] is one). *)
Definition toString (z : Z) : string :=
  if z <? 0 then String "-" (natToString (- z)) else natToString z.

(** Value of a digit character in radix up to 36. *)
Definition digitVal (c : ascii) : option Z :=
  let n := code c in
  if (48 <=? n) && (n <=? 57) then Some (n - 48)
  else if (97 <=? n) && (n <=? 122) then Some (n - 87)
  else if (65 <=? n) && (n <=? 90) then Some (n - 55)
  else None.

(** Reads the longest run of digits of [radix] at the head of [s]:
    the value read on top of [acc], how many digits, and what is left. *)
Fixpoint scanDigits (radix : Z) (s : string) (acc : Z) (n : nat)
  : Z * nat * string :=
  match s with
  | EmptyString => (acc, n, s)
  | String c s' =>
      match digitVal c with
      | Some d =>
          if d <? radix then scanDigits radix s' (acc * radix + d) (S n)
          else (acc, n, s)
      | None => (acc, n, s)
      end
  end.

Definition stripSign (s : string) : Z * string :=
  match s with
  | String "-" s' => (-1, s')
  | String "+" s' => (1, s')
  | _ => (1, s)
  end.

Definition stripHexPrefix (s : string) : Z * string :=
  match s with
  | String "0" (String "x" s') => (16, s')
  | String "0" (String "X" s') => (16, s')
  | _ => (10, s)
  end.

(** [parseInt(s)] without a radix argument. *)
Definition parseInt (s : string) : Num :=
  let '(sign, s1) := stripSign (trimStart s) in
  let '(radix, s2) := stripHexPrefix s1 in
  let '(v, n, _) := scanDigits radix s2 0 O in
  match n with
  | O => NaN
  | S _ => Fin (sign * v)
  end.

(** All of [s] read as digits of [radix]; at least one digit. *)
Definition allDigits (radix : Z) (s : string) : option Z :=
  match scanDigits radix s 0 O with
  | (v, S _, EmptyString) => Some v
  | _ => None
  end.

(** [BigInt(s)] for a string argument (StringToBigInt): [None] is the
    SyntaxError it throws. *)
Definition BigInt (s : string) : option Z :=
  match trim s with
  | EmptyString => Some 0
  | String "0" (String "x" r) | String "0" (String "X" r) => allDigits 16 r
  | String "0" (String "o" r) | String "0" (String "O" r) => allDigits 8 r
  | String "0" (String "b" r) | String "0" (String "B" r) => allDigits 2 r
  | String "-" r => option_map Z.opp (allDigits 10 r)
  | String "+" r => allDigits 10 r
  | t => allDigits 10 t
  end.

End JsNumber.
Import JsNumber.

(** ** The viem helpers the bot imports

    [parseEther] and [formatEther] are viem's [parseUnits] and [formatUnits]
    at 18 decimals (viem/utils/unit). [formatUnits] is transcribed from the
    library: the digits of the value, left-padded with zeros to [decimals],
    split [decimals] from the end, the fraction stripped of trailing zeros
    and dropped with its dot when nothing is left of it. *)
Module Viem.

Fixpoint zeros (n : nat) : string :=
  match n with
  | O => EmptyString
  | S k => String "0" (zeros k)
  end.

(** [s.padStart(n, '0')] *)
Definition padStart (n : nat) (s : string) : string :=
  zeros (n - String.length s) ++ s.

(** [s.replace(/(0+)$/, '')] *)
Fixpoint stripTrailingZeros (s : string) : string :=
  match s with
  | EmptyString => EmptyString
  | String c s' =>
      let r := stripTrailingZeros s' in
      if Ascii.eqb c "0" && isEmpty r then EmptyString else String c r
  end.

Definition formatUnits (value : Z) (decimals : nat) : string :=
  let display := toString value in
  let negative := startsWith "-" display in
  let display :=
    if negative then substring 1 (String.length display - 1) display
    else display in
  let display := padStart decimals display in
  let cut := (String.length display - decimals)%nat in
  let integer := substring 0 cut display in
  let fraction := stripTrailingZeros (substring cut decimals display) in
  (if negative then "-" else "")
  ++ (if isEmpty integer then "0" else integer)
  ++ (if isEmpty fraction then "" else "." ++ fraction).

Definition formatEther (wei : Z) : string := formatUnits wei 18.

(** [parseEther('1')], the only call the bot makes. *)
Definition parseEther_1 : Z := 10 ^ 18.

(** [base.id] and [base.blockExplorers.default.url] of viem/chains. *)
Definition base_id : Z := 8453.
Definition base_explorer_url : string := "https://basescan.org".

End Viem.
Import Viem.

(** ** Data model *)

Definition Address := string.

(** Modelled from the spec: the generated GraphQL types ([./graphql]) are not
    among the sources. A market is the record of section 3 (identifier,
    question, end timestamp, public flag, owning group address) with the
    fields the query selects; the end timestamp is an optional integer
    ("timestamps compare as integers"), [None] standing for null or
    undefined, and likewise for the other nullable fields. *)
Record MarketGroupRef : Type := mkRef {
  ref_address : option Address
}.

Record MarketType : Type := mkMarket {
  question : option string;
  marketId : Z;
  endTimestamp : option Z;
  public : option bool;
  marketGroup : option MarketGroupRef
}.

Record MarketGroupType : Type := mkGroup {
  address : option Address;
  markets : option (list MarketType)
}.

Record ResponseData : Type := mkResponse {
  marketGroups : option (list MarketGroupType)
}.

Record QueryVariables : Type := mkVars {
  chainId : Z;
  collateralAsset : Address;
  baseTokenName : string;
  currentTime : string
}.

(** The body of a quoter answer as line 139 types it. *)
Record Quote : Type := mkQuote {
  maxSize : string
}.

Inductive Arg : Type :=
| ArgAddress (a : Address)
| ArgInt (z : Z).

Record ContractCall : Type := mkCall {
  call_address : Address;
  functionName : string;
  args : list Arg
}.

(** ** Effects: results, events and the world *)

Inductive Result (A : Type) : Type :=
| Ok (a : A)
| Throw (message : string).
Arguments Ok {A} a.
Arguments Throw {A} message.

Record HttpResponse : Type := mkHttp {
  ok : bool;
  status : Z;
  text : string;
  json : Result Quote
}.

Inductive Event : Type :=
| GraphQLRequest (url : string) (variables : QueryVariables)
| ChatCompletion (userMessage : option string)
| HttpGet (url : string)
| WriteContract (account : Address) (call : ContractCall)
| WaitForTransactionReceipt (hash : string)
| ConsoleLog (line : string)
| ConsoleError (line : string)
| ConsoleGroup (label : string)
| ConsoleGroupEnd.

(** What the outside answers. A [Throw] is a rejected promise or a thrown
    exception of the library call. *)
Record World : Type := mkWorld {
  nowAtQuery : Z;
  nowAtTrade : Z;
  graphql : string -> QueryVariables -> Result (option ResponseData);
  chat : option string -> Result (option string);
  httpGet : string -> Result HttpResponse;
  privateKeyToAccount : string -> Result Address;
  writeContract : Address -> ContractCall -> Result string;
  waitForTransactionReceipt : string -> Result unit
}.

Record Env : Type := mkEnv {
  ETHEREUM_PRIVATE_KEY : option string;
  OPENAI_API_KEY : option string
}.

(** Truthiness of [process.env.X]: unset and the empty string are falsy. *)
Definition isSet (v : option string) : bool :=
  match v with
  | Some (String _ _) => true
  | _ => false
  end.

(** A computation: the events it caused, in order, and how it ended. *)
Definition IO (A : Type) : Type := (list Event * Result A)%type.

Definition io_ret {A} (a : A) : IO A := ([], Ok a).

Definition io_bind {A B} (m : IO A) (f : A -> IO B) : IO B :=
  match m with
  | (t, Ok a) => let '(t', r) := f a in ((t ++ t')%list, r)
  | (t, Throw e) => (t, Throw e)
  end.

#[export] Instance Monad_IO : Monad IO :=
  {| ret := @io_ret; bind := @io_bind |}.

Definition throw {A} (message : string) : IO A := ([], Throw message).

(** An external call: the event, then whatever the world answered. *)
Definition perform {A} (e : Event) (answer : Result A) : IO A := ([e], answer).

Definition emit (e : Event) : IO unit := ([e], Ok tt).

Definition console_log (line : string) : IO unit := emit (ConsoleLog line).

Definition trace {A} (m : IO A) : list Event := fst m.
Definition outcome {A} (m : IO A) : Result A := snd m.

(** Is the event an on-chain operation (a transaction or the wait for one). *)
Definition isOnChain (e : Event) : bool :=
  match e with
  | WriteContract _ _ | WaitForTransactionReceipt _ => true
  | _ => false
  end.

Definition isChatCall (e : Event) : bool :=
  match e with
  | ChatCompletion _ => true
  | _ => false
  end.

(** How a template literal prints a nullable string. *)
Definition showNullable (v : option string) : string :=
  match v with
  | Some s => s
  | None => "null"
  end.

(** ** The program *)

Definition SUSDS_ADDRESS : Address := "0x5875eEE11Cf8398102FdAd704C9E96607675467a".
Definition WAGER_AMOUNT : Z := parseEther_1.
Definition GRAPHQL_URL : string := "https://api.sapience.xyz/graphql".

(** *** fetchNextClosingMarket (lines 16-69) *)

(** Lines 49-52: the market with its group's address attached. *)
Definition withGroup (group : MarketGroupType) (market : MarketType) : MarketType :=
  {| question := question market;
     marketId := marketId market;
     endTimestamp := endTimestamp market;
     public := public market;
     marketGroup := Some (mkRef (address group)) |}.

(** Lines 48-53: [flatMap] over the groups; a group without [markets]
    contributes nothing. *)
Definition flattenMarkets (groups : list MarketGroupType) : list MarketType :=
  flat_map
    (fun group =>
       match markets group with
       | Some ms => map (withGroup group) ms
       | None => []
       end)
    groups.

(** Line 54: [market.public === true]. *)
Definition isPublic (market : MarketType) : bool :=
  match public market with
  | Some true => true
  | _ => false
  end.

(** Lines 58-59: [m.endTimestamp ? parseInt(m.endTimestamp.toString()) : Infinity].
    The test is on truthiness: null, undefined and the number 0 take the
    [Infinity] branch. *)
Definition endTime (market : MarketType) : Num :=
  match endTimestamp market with
  | Some t => if t =? 0 then Infinity else parseInt (toString t)
  | None => Infinity
  end.

(** Lines 55-62: the reducer. *)
Definition earlier (earliest : option MarketType) (market : MarketType)
  : option MarketType :=
  match earliest with
  | None => Some market
  | Some e => if lt (endTime market) (endTime e) then Some market else Some e
  end.

(** The candidates of the scan: flattened, then filtered. *)
Definition publicMarkets (responseData : option ResponseData) : list MarketType :=
  match responseData with
  | Some (mkResponse (Some groups)) => filter isPublic (flattenMarkets groups)
  | _ => []
  end.

(** Lines 47-62, optional chaining included. *)
Definition nextMarket (responseData : option ResponseData) : option MarketType :=
  match responseData with
  | Some (mkResponse (Some groups)) =>
      fold_left earlier (filter isPublic (flattenMarkets groups)) None
  | _ => None
  end.

Definition queryVariables (w : World) : QueryVariables :=
  {| chainId := base_id;
     collateralAsset := SUSDS_ADDRESS;
     baseTokenName := "Yes";
     currentTime := toString (nowAtQuery w / 1000) |}.

Definition NO_ACTIVE_MARKETS : string := "No active markets found.".

Definition fetchNextClosingMarket (w : World) : IO MarketType :=
  responseData <-
    perform (GraphQLRequest GRAPHQL_URL (queryVariables w))
            (graphql w GRAPHQL_URL (queryVariables w)) ;;
  match nextMarket responseData with
  | None => throw NO_ACTIVE_MARKETS
  | Some market => ret market
  end.

(** *** getPrediction (lines 72-119) *)

Definition COULD_NOT_PARSE : string := "Couldn't parse a prediction".

(** Lines 104-118: the reading of the model's text. *)
Definition parseAnswer (content : string) : Result Z :=
  let answer := toLowerCase (trim content) in
  if includes "yes" answer then Ok parseEther_1
  else if includes "no" answer then Ok 0
  else Throw COULD_NOT_PARSE.

Definition getPrediction (env : Env) (w : World) (question : option string) : IO Z :=
  if negb (isSet (OPENAI_API_KEY env)) then
    console_log ("OpenAI API key not found. Defaulting to " ++ dquote ++ "Yes" ++ dquote ++ ".") ;;
    ret parseEther_1
  else
    content <- perform (ChatCompletion question) (chat w question) ;;
    match content with
    | None =>
        emit (ConsoleError "Invalid response structure from OpenAI API:") ;;
        throw "Failed to get a valid response from OpenAI API."
    | Some content =>
        console_log content ;;
        (([], parseAnswer content) : IO Z)
    end.

(** *** getQuote (lines 122-144) *)

Definition NEAR_ZERO_PRICE : string := "0.0000009".

(** Lines 123-128. *)
Definition expectedPriceDecimalString (prediction : Z) : string :=
  if prediction =? 0 then NEAR_ZERO_PRICE else formatEther prediction.

(** Line 130. *)
Definition quoterUrl (marketAddress : Address) (marketId prediction : Z) : string :=
  "https://api.sapience.xyz/quoter/" ++ toString base_id ++ "/" ++ marketAddress
  ++ "/" ++ toString marketId
  ++ "?collateralAvailable=" ++ toString WAGER_AMOUNT
  ++ "&expectedPrice=" ++ expectedPriceDecimalString prediction.

Definition quoterFailure (response : HttpResponse) : string :=
  "Quoter API request failed with status " ++ toString (status response)
  ++ ": " ++ text response.

(** The result is the [positionSize] of the object the function returns. *)
Definition getQuote (w : World) (marketAddress : Address) (marketId prediction : Z)
  : IO Z :=
  let url := quoterUrl marketAddress marketId prediction in
  response <- perform (HttpGet url) (httpGet w url) ;;
  if negb (ok response) then
    emit (ConsoleError (quoterFailure response)) ;;
    throw (quoterFailure response)
  else
    quote <- (([], json response) : IO Quote) ;;
    match BigInt (maxSize quote) with
    | Some positionSize => ret positionSize
    | None => throw ("SyntaxError: Cannot convert " ++ maxSize quote ++ " to a BigInt")
    end.

(** *** trade (lines 147-190) *)

Definition KEY_NOT_SET : string :=
  "Ethereum private key is not set in environment variables.".

Definition approveCall (marketAddress : Address) : ContractCall :=
  {| call_address := SUSDS_ADDRESS;
     functionName := "approve";
     args := [ArgAddress marketAddress; ArgInt WAGER_AMOUNT] |}.

Definition createTraderPositionCall (marketAddress : Address)
  (marketId positionSize deadline : Z) : ContractCall :=
  {| call_address := marketAddress;
     functionName := "createTraderPosition";
     args := [ArgInt marketId; ArgInt positionSize; ArgInt WAGER_AMOUNT; ArgInt deadline] |}.

Definition trade (env : Env) (w : World) (marketAddress : Address)
  (marketId positionSize : Z) : IO unit :=
  match ETHEREUM_PRIVATE_KEY env with
  | Some (String c k) =>
      account <- (([], privateKeyToAccount w (String c k)) : IO Address) ;;
      console_log "Approving token spend..." ;;
      approveHash <-
        perform (WriteContract account (approveCall marketAddress))
                (writeContract w account (approveCall marketAddress)) ;;
      perform (WaitForTransactionReceipt approveHash)
              (waitForTransactionReceipt w approveHash) ;;
      let deadline := nowAtTrade w / 1000 + 60 * 60 in
      console_log "Creating trader position..." ;;
      let call := createTraderPositionCall marketAddress marketId positionSize deadline in
      tradeHash <- perform (WriteContract account call) (writeContract w account call) ;;
      perform (WaitForTransactionReceipt tradeHash)
              (waitForTransactionReceipt w tradeHash) ;;
      console_log "" ;;
      console_log "Success!" ;;
      console_log (base_explorer_url ++ "/tx/" ++ tradeHash)
  | _ => throw KEY_NOT_SET
  end.

(** *** The top-level block (lines 192-224) *)

Definition tradeSizeLine (positionSize : Z) : string :=
  "Trade Size: " ++ formatEther positionSize.

(** [market.marketGroup!.address!]: reading [address] off a missing group
    is a TypeError; a null address passes through and prints as such. *)
Definition groupAddressOf (market : MarketType) : IO Address :=
  match marketGroup market with
  | Some g => ret (showNullable (ref_address g))
  | None => throw "TypeError: Cannot read properties of undefined (reading 'address')"
  end.

(** Lines 211-221: trade, or report the size. *)
Definition settle (env : Env) (w : World) (marketGroupAddress : Address)
  (marketId positionSize : Z) : IO unit :=
  if isSet (ETHEREUM_PRIVATE_KEY env) then
    emit (ConsoleGroup ("Submitting trade with a size of " ++ formatEther positionSize ++ "...")) ;;
    console_log "" ;;
    trade env w marketGroupAddress marketId positionSize ;;
    emit ConsoleGroupEnd ;;
    console_log ""
  else
    console_log (tradeSizeLine positionSize) ;;
    console_log "Add an Ethereum private key to your .env file to submit trades." ;;
    console_log "".

Definition run (env : Env) (w : World) : IO unit :=
  market <- fetchNextClosingMarket w ;;
  emit (ConsoleGroup "Found an active market...") ;;
  console_log "" ;;
  console_log (showNullable (question market)) ;;
  emit ConsoleGroupEnd ;;
  console_log "" ;;
  emit (ConsoleGroup "Asking ChatGPT for an answer...") ;;
  console_log "" ;;
  prediction <- getPrediction env w (question market) ;;
  emit ConsoleGroupEnd ;;
  console_log "" ;;
  console_log ("Retrieving a quote for a $1 wager on market outcome " ++ dquote
               ++ toString prediction ++ dquote ++ "...") ;;
  console_log "" ;;
  marketGroupAddress <- groupAddressOf market ;;
  positionSize <- getQuote w marketGroupAddress (marketId market) prediction ;;
  settle env w marketGroupAddress (marketId market) positionSize ;;
  console_log "Done!".

(** The events of a whole run: [.catch(console.error)] prints what was thrown. *)
Definition main (env : Env) (w : World) : list Event :=
  match run env w with
  | (t, Ok _) => t
  | (t, Throw e) => t ++ [ConsoleError e]
  end%list.

(** ** Vocabulary of the properties *)

Definition isDigit (c : ascii) : bool := (48 <=? code c) && (code c <=? 57).

Fixpoint digitString (s : string) : bool :=
  match s with
  | EmptyString => true
  | String c s' => isDigit c && digitString s'
  end.

(** The end time as the scan reads it: the timestamp, except that a
    missing one and the number 0 stand for no end at all. *)
Definition closingKey (market : MarketType) : Num :=
  match endTimestamp market with
  | Some t => if t =? 0 then Infinity else Fin t
  | None => Infinity
  end.

(** [a] ends strictly before [b] / no later than [b]. *)
Definition before (a b : MarketType) : Prop :=
  lt (closingKey a) (closingKey b) = true.

Definition notAfter (a b : MarketType) : Prop :=
  lt (closingKey b) (closingKey a) = false.

(** [m] is the first earliest-closing element of [l]. *)
Definition FirstEarliest (m : MarketType) (l : list MarketType) : Prop :=
  exists pre post,
    l = (pre ++ m :: post)%list
    /\ (forall x, In x pre -> before m x)
    /\ (forall x, In x post -> notAfter m x).

(** Every market of the answer, group address attached, in encounter order. *)
Definition allMarkets (responseData : option ResponseData) : list MarketType :=
  match responseData with
  | Some (mkResponse (Some groups)) => flattenMarkets groups
  | _ => []
  end.


(** The quoter URL up to its last parameter (line 130). *)
Definition quoterUrlPrefix (marketAddress : Address) (marketId : Z) : string :=
  "https://api.sapience.xyz/quoter/8453/" ++ marketAddress ++ "/" ++ toString marketId
  ++ "?collateralAvailable=1000000000000000000&expectedPrice=".

(** The computation causes no on-chain operation. *)
Definition offChain {A} (m : IO A) : Prop :=
  forall e, In e (trace m) -> isOnChain e = false.

(** ** Sample inputs *)

Definition sampleMarket (id : Z) (t : option Z) (pub : bool) : MarketType :=
  {| question := Some ("Will it happen? #" ++ toString id);
     marketId := id;
     endTimestamp := t;
     public := Some pub;
     marketGroup := None |}.

Definition sampleResponse (ms : list MarketType) : option ResponseData :=
  Some (mkResponse (Some [mkGroup (Some "0xGroup") (Some ms)])).

Definition sampleQuote : HttpResponse :=
  {| ok := true; status := 200; text := "";
     json := Ok (mkQuote "500000000000000000") |}.

(** A world that serves [responseData], answers every chat with [answer]
    and every quoter call with [quote]; the chain accepts everything. *)
Definition sampleWorld (responseData : option ResponseData)
  (answer : Result (option string)) (quote : Result HttpResponse) : World :=
  {| nowAtQuery := 1762100000000;
     nowAtTrade := 1762100005000;
     graphql := fun _ _ => Ok responseData;
     chat := fun _ => answer;
     httpGet := fun _ => quote;
     privateKeyToAccount := fun _ => Ok "0xAccount";
     writeContract := fun _ call => Ok ("0xhash-" ++ functionName call);
     waitForTransactionReceipt := fun _ => Ok tt |}.

Definition marketsWorld (ms : list MarketType) : World :=
  sampleWorld (sampleResponse ms) (Ok (Some "Yes")) (Ok sampleQuote).

Definition answerWorld (content : string) : World :=
  sampleWorld (sampleResponse [sampleMarket 1 (Some 1762200000) true])
              (Ok (Some content)) (Ok sampleQuote).

Definition quoteWorld (size : string) : World :=
  sampleWorld (sampleResponse [sampleMarket 1 (Some 1762200000) true])
              (Ok (Some "Yes"))
              (Ok {| ok := true; status := 200; text := ""; json := Ok (mkQuote size) |}).

(** The markets of the spec's example: t=100 private, t=200 public, t=150 public. *)
Definition mixedMarkets : list MarketType :=
  [sampleMarket 1 (Some 100) false; sampleMarket 2 (Some 200) true;
   sampleMarket 3 (Some 150) true].

Definition noKeys : Env := {| ETHEREUM_PRIVATE_KEY := None; OPENAI_API_KEY := None |}.
Definition chatKeyOnly : Env :=
  {| ETHEREUM_PRIVATE_KEY := None; OPENAI_API_KEY := Some "sk-test" |}.
Definition bothKeys : Env :=
  {| ETHEREUM_PRIVATE_KEY := Some "0x01"; OPENAI_API_KEY := Some "sk-test" |}.


(** A public market without a timestamp ahead of one stamped 0. *)
Definition missingThenZero : list MarketType :=
  [sampleMarket 1 None true; sampleMarket 2 (Some 0) true].

(** Public markets with no timestamp around a private one that has one. *)
Definition unstamped : list MarketType :=
  [sampleMarket 1 None true; sampleMarket 2 (Some 100) false;
   sampleMarket 3 None true].

Definition allPrivate : list MarketType :=
  [sampleMarket 1 (Some 100) false; sampleMarket 2 (Some 50) false].

(** The first of [unstamped] as the scan sees it, group attached. *)
Definition firstUnstamped : MarketType :=
  withGroup (mkGroup (Some "0xGroup") None) (sampleMarket 1 None true).

(** The market the spec's example expects, group attached. *)
Definition closingAt150 : MarketType :=
  withGroup (mkGroup (Some "0xGroup") None) (sampleMarket 3 (Some 150) true).

(** Some character of [s] lower-cases to the letter [l]. *)
Fixpoint hasLetter (l : ascii) (s : string) : bool :=
  match s with
  | EmptyString => false
  | String c s' => Ascii.eqb (lowerChar c) l || hasLetter l s'
  end.

(** [s] is made of white space only. *)
Fixpoint blank (s : string) : bool :=
  match s with
  | EmptyString => true
  | String c s' => isWhiteSpace c && blank s'
  end.

Definition isHttpGet (e : Event) : bool :=
  match e with
  | HttpGet _ => true
  | _ => false
  end.

Definition isWriteContract (e : Event) : bool :=
  match e with
  | WriteContract _ _ => true
  | _ => false
  end.

(** The list ends with [x]. *)
Definition EndsWith {A} (x : A) (l : list A) : Prop :=
  exists front, l = (front ++ [x])%list.

(** A world whose market service rejects the request. *)
Definition offlineWorld : World :=
  {| nowAtQuery := 1762100000999;
     nowAtTrade := 1762100005999;
     graphql := fun _ _ => Throw "fetch failed";
     chat := fun _ => Ok (Some "Yes");
     httpGet := fun _ => Ok sampleQuote;
     privateKeyToAccount := fun _ => Ok "0xAccount";
     writeContract := fun _ call => Ok ("0xhash-" ++ functionName call);
     waitForTransactionReceipt := fun _ => Ok tt |}.

(** A world whose quoter answers 500 with a body. *)
Definition quoterDownWorld : World :=
  sampleWorld (sampleResponse mixedMarkets) (Ok (Some "Yes"))
              (Ok {| ok := false; status := 500; text := "Internal Server Error";
                     json := Ok (mkQuote "1") |}).

(** A world whose chain takes the approval but rejects the position. *)
Definition revertingWorld : World :=
  {| nowAtQuery := 1762100000000;
     nowAtTrade := 1762100005999;
     graphql := fun _ _ => Ok (sampleResponse mixedMarkets);
     chat := fun _ => Ok (Some "Yes");
     httpGet := fun _ => Ok sampleQuote;
     privateKeyToAccount := fun _ => Ok "0xAccount";
     writeContract := fun _ call =>
       if String.eqb (functionName call) "approve" then Ok "0xhash-approve"
       else Throw "execution reverted";
     waitForTransactionReceipt := fun _ => Ok tt |}.

Definition isConsole (e : Event) : bool :=
  match e with
  | ConsoleLog _ | ConsoleError _ | ConsoleGroup _ | ConsoleGroupEnd => true
  | _ => false
  end.

(** The computation throws [e] and its events end with the list [tail]. *)
Definition ThrowsAfter {A} (e : string) (tail : list Event) (m : IO A) : Prop :=
  outcome m = Throw e /\ exists front, trace m = (front ++ tail)%list.

(** ** Facts about strings *)

Section StringFacts.

Lemma startsWith_app (p post : string) : startsWith p (p ++ post) = true.
Proof.
  induction p as [|a p IH]; simpl; [reflexivity|].
  now rewrite Ascii.eqb_refl, IH.
Qed.

Lemma startsWith_inv (p s : string) :
  startsWith p s = true -> exists post, s = p ++ post.
Proof.
  revert s; induction p as [|a p IH]; intros s H.
  - now exists s.
  - destruct s as [|b s]; simpl in H; [discriminate|].
    apply andb_true_iff in H as [Hab Hps].
    apply Ascii.eqb_eq in Hab; subst b.
    destruct (IH _ Hps) as [post ->].
    now exists post.
Qed.

Lemma includes_startsWith (p s : string) :
  startsWith p s = true -> includes p s = true.
Proof. intros H; destruct s; simpl; now rewrite H. Qed.

(** [includes] decides the substring relation. *)
Lemma includes_Substring (p s : string) :
  includes p s = true <-> Substring p s.
Proof.
  split.
  - induction s as [|c s IH]; simpl; intros H.
    + rewrite orb_false_r in H.
      destruct (startsWith_inv _ _ H) as [post Hpost].
      exists EmptyString, post; exact Hpost.
    + apply orb_true_iff in H as [H|H].
      * destruct (startsWith_inv _ _ H) as [post Hpost].
        exists EmptyString, post; exact Hpost.
      * destruct (IH H) as (pre & post & ->).
        exists (String c pre), post; reflexivity.
  - intros (pre & post & ->).
    induction pre as [|c pre IH]; simpl.
    + apply includes_startsWith, startsWith_app.
    + rewrite IH; apply orb_true_r.
Qed.

Lemma includes_false_iff (p s : string) :
  includes p s = false <-> ~ Substring p s.
Proof.
  rewrite <- includes_Substring.
  destruct (includes p s); split; intros H; congruence.
Qed.

Lemma append_assoc (a b c : string) : (a ++ b) ++ c = a ++ b ++ c.
Proof. induction a as [|x a IH]; simpl; [reflexivity | now rewrite IH]. Qed.

Lemma toLowerCase_app (a b : string) :
  toLowerCase (a ++ b) = toLowerCase a ++ toLowerCase b.
Proof. induction a as [|c a IH]; simpl; [reflexivity | now rewrite IH]. Qed.

Lemma ascii_cases (P : ascii -> Prop) :
  (forall b0 b1 b2 b3 b4 b5 b6 b7, P (Ascii b0 b1 b2 b3 b4 b5 b6 b7)) ->
  forall c, P c.
Proof. intros H [b0 b1 b2 b3 b4 b5 b6 b7]; apply H. Qed.

Lemma isWhiteSpace_lowerChar (c : ascii) :
  isWhiteSpace (lowerChar c) = isWhiteSpace c.
Proof.
  revert c; apply ascii_cases.
  intros [|] [|] [|] [|] [|] [|] [|] [|]; reflexivity.
Qed.

Lemma toLowerCase_trimStart (s : string) :
  toLowerCase (trimStart s) = trimStart (toLowerCase s).
Proof.
  induction s as [|c s IH]; simpl; [reflexivity|].
  rewrite isWhiteSpace_lowerChar.
  destruct (isWhiteSpace c); [exact IH | reflexivity].
Qed.

Lemma isEmpty_toLowerCase (s : string) : isEmpty (toLowerCase s) = isEmpty s.
Proof. destruct s; reflexivity. Qed.

Lemma toLowerCase_trimEnd (s : string) :
  toLowerCase (trimEnd s) = trimEnd (toLowerCase s).
Proof.
  induction s as [|c s IH]; simpl; [reflexivity|].
  rewrite isWhiteSpace_lowerChar, <- IH, isEmpty_toLowerCase.
  destruct (isWhiteSpace c && isEmpty (trimEnd s)); reflexivity.
Qed.

(** Lower-casing and trimming commute. *)
Lemma toLowerCase_trim (s : string) :
  toLowerCase (trim s) = trim (toLowerCase s).
Proof. unfold trim; now rewrite toLowerCase_trimEnd, toLowerCase_trimStart. Qed.

Lemma startsWith_trimEnd (p s : string) :
  noWhiteSpace p = true -> startsWith p (trimEnd s) = startsWith p s.
Proof.
  revert p; induction s as [|c s IH]; intros p Hp; [reflexivity|].
  destruct p as [|a p]; simpl.
  - destruct (isWhiteSpace c && isEmpty (trimEnd s)); reflexivity.
  - simpl in Hp. apply andb_true_iff in Hp as [Ha Hp].
    destruct (isWhiteSpace c && isEmpty (trimEnd s)) eqn:E; simpl.
    + apply andb_true_iff in E as [Hc _].
      destruct (Ascii.eqb_spec a c) as [->|]; [|reflexivity].
      rewrite Hc in Ha; discriminate.
    + now rewrite IH.
Qed.

Lemma includes_trimEnd (p s : string) :
  noWhiteSpace p = true -> isEmpty p = false ->
  includes p (trimEnd s) = includes p s.
Proof.
  intros Hp Hne; induction s as [|c s IH]; [reflexivity|].
  change (includes p (String c s))
    with (startsWith p (String c s) || includes p s).
  rewrite <- IH, <- (startsWith_trimEnd p (String c s) Hp).
  simpl trimEnd.
  destruct (isWhiteSpace c && isEmpty (trimEnd s)) eqn:E.
  - apply andb_true_iff in E as [_ E].
    destruct (trimEnd s); [|discriminate].
    destruct p; [discriminate | reflexivity].
  - reflexivity.
Qed.

Lemma includes_trimStart (p s : string) :
  noWhiteSpace p = true -> isEmpty p = false ->
  includes p (trimStart s) = includes p s.
Proof.
  intros Hp Hne; induction s as [|c s IH]; [reflexivity|].
  simpl trimStart.
  destruct (isWhiteSpace c) eqn:Hc; [|reflexivity].
  rewrite IH.
  change (includes p (String c s))
    with (startsWith p (String c s) || includes p s).
  destruct p as [|a p]; [discriminate|].
  simpl in Hp |- *. apply andb_true_iff in Hp as [Ha _].
  destruct (Ascii.eqb_spec a c) as [->|]; [|reflexivity].
  rewrite Hc in Ha; discriminate.
Qed.

(** Trimming cannot add or remove an occurrence of a word without blanks. *)
Lemma includes_trim (p s : string) :
  noWhiteSpace p = true -> isEmpty p = false ->
  includes p (trim s) = includes p s.
Proof.
  intros Hp Hne; unfold trim.
  now rewrite includes_trimEnd, includes_trimStart.
Qed.

Lemma trimStart_noWhiteSpace (s : string) :
  noWhiteSpace s = true -> trimStart s = s.
Proof.
  destruct s as [|c s]; simpl; [reflexivity|].
  intros H; apply andb_true_iff in H as [Hc _].
  now destruct (isWhiteSpace c).
Qed.

Lemma trimEnd_noWhiteSpace (s : string) :
  noWhiteSpace s = true -> trimEnd s = s.
Proof.
  induction s as [|c s IH]; simpl; [reflexivity|].
  intros H; apply andb_true_iff in H as [Hc Hs].
  rewrite (IH Hs). now destruct (isWhiteSpace c).
Qed.

Lemma trim_noWhiteSpace (s : string) :
  noWhiteSpace s = true -> trim s = s.
Proof.
  intros H; unfold trim.
  now rewrite (trimStart_noWhiteSpace _ H), (trimEnd_noWhiteSpace _ H).
Qed.

End StringFacts.

(** ** Facts about decimal text *)

Section NumberFacts.

Lemma digitVal_digitChar (d : Z) :
  0 <= d < 10 -> digitVal (digitChar d) = Some d.
Proof.
  intros H.
  assert (E : d = 0 \/ d = 1 \/ d = 2 \/ d = 3 \/ d = 4 \/ d = 5 \/ d = 6
              \/ d = 7 \/ d = 8 \/ d = 9) by lia.
  repeat (destruct E as [-> | E]; [reflexivity|]); subst; reflexivity.
Qed.

Lemma isDigit_digitChar (d : Z) :
  0 <= d < 10 -> isDigit (digitChar d) = true.
Proof.
  intros H.
  assert (E : d = 0 \/ d = 1 \/ d = 2 \/ d = 3 \/ d = 4 \/ d = 5 \/ d = 6
              \/ d = 7 \/ d = 8 \/ d = 9) by lia.
  repeat (destruct E as [-> | E]; [reflexivity|]); subst; reflexivity.
Qed.

Lemma scanDigits_push (d : Z) (rest : string) (acc : Z) (k : nat) :
  0 <= d < 10 ->
  scanDigits 10 (String (digitChar d) rest) acc k
  = scanDigits 10 rest (acc * 10 + d) (S k).
Proof.
  intros H. simpl. rewrite (digitVal_digitChar d H).
  destruct (Z.ltb_spec d 10); [reflexivity | lia].
Qed.

Lemma digitsFrom_S (f : nat) (n : Z) (acc : string) :
  digitsFrom (S f) n acc
  = if n <? 10 then String (digitChar (n mod 10)) acc
    else digitsFrom f (n / 10) (String (digitChar (n mod 10)) acc).
Proof. reflexivity. Qed.

(** Reading back the digits written for [n] yields [n], and at least one
    digit was there. *)
Lemma scanDigits_digitsFrom (f : nat) :
  forall (n : Z) (rest : string) (k : nat),
    0 <= n < 2 ^ Z.of_nat (S f) ->
    exists j, scanDigits 10 (digitsFrom (S f) n rest) 0 k
              = scanDigits 10 rest n (S (k + j)).
Proof.
  induction f as [|f IH]; intros n rest k Hn.
  - change (2 ^ Z.of_nat 1) with 2 in Hn.
    exists O. rewrite digitsFrom_S.
    destruct (Z.ltb_spec n 10); [|lia].
    rewrite Z.mod_small by lia.
    rewrite scanDigits_push by lia. now rewrite Nat.add_0_r.
  - rewrite digitsFrom_S.
    destruct (Z.ltb_spec n 10) as [Hlt|Hge].
    + exists O. rewrite Z.mod_small by lia.
      rewrite scanDigits_push by lia. now rewrite Nat.add_0_r.
    + assert (Hdiv : 0 <= n / 10 < 2 ^ Z.of_nat (S f)).
      { split; [apply Z.div_pos; lia|].
        apply Z.div_lt_upper_bound; [lia|].
        rewrite (Nat2Z.inj_succ (S f)), Z.pow_succ_r in Hn by lia. lia. }
      destruct (IH (n / 10) (String (digitChar (n mod 10)) rest) k Hdiv) as [j Hj].
      exists (S j).
      rewrite Hj.
      rewrite scanDigits_push by (apply Z.mod_pos_bound; lia).
      replace (n / 10 * 10 + n mod 10) with n
        by (rewrite (Z.div_mod n 10) at 1; lia).
      now rewrite Nat.add_succ_r.
Qed.

Lemma digitString_digitsFrom (f : nat) :
  forall (n : Z) (rest : string),
    0 <= n -> digitString rest = true ->
    digitString (digitsFrom f n rest) = true.
Proof.
  induction f as [|f IH]; intros n rest Hn Hrest; [exact Hrest|].
  assert (Hd : digitString (String (digitChar (n mod 10)) rest) = true).
  { simpl. rewrite isDigit_digitChar by (apply Z.mod_pos_bound; lia). exact Hrest. }
  rewrite digitsFrom_S.
  destruct (n <? 10); [exact Hd|].
  apply IH; [apply Z.div_pos; lia | exact Hd].
Qed.

Lemma digitsFrom_nonempty (f : nat) (n : Z) (rest : string) :
  isEmpty (digitsFrom (S f) n rest) = false.
Proof.
  revert n rest; induction f as [|f IH]; intros n rest; rewrite digitsFrom_S.
  - destruct (n <? 10); reflexivity.
  - destruct (n <? 10); [reflexivity|]. apply IH.
Qed.

Lemma fuel_enough (n : Z) :
  0 <= n -> n < 2 ^ Z.of_nat (S (Z.to_nat (Z.log2 n))).
Proof.
  intros Hn.
  rewrite Nat2Z.inj_succ, Z2Nat.id by apply Z.log2_nonneg.
  destruct (Z.eq_dec n 0) as [->|Hnz]; [reflexivity|].
  apply Z.log2_spec; lia.
Qed.

Lemma scanDigits_natToString (n : Z) :
  0 <= n ->
  exists j, scanDigits 10 (natToString n) 0 O = (n, S j, EmptyString).
Proof.
  intros Hn. unfold natToString.
  destruct (scanDigits_digitsFrom (Z.to_nat (Z.log2 n)) n EmptyString O) as [j Hj].
  - split; [exact Hn | apply fuel_enough, Hn].
  - exists j. rewrite Hj. reflexivity.
Qed.

Lemma digitString_natToString (n : Z) :
  0 <= n -> digitString (natToString n) = true.
Proof. intros Hn; apply digitString_digitsFrom; [exact Hn | reflexivity]. Qed.

Lemma allDigits_natToString (n : Z) :
  0 <= n -> allDigits 10 (natToString n) = Some n.
Proof.
  intros Hn. unfold allDigits.
  destruct (scanDigits_natToString n Hn) as [j ->]. reflexivity.
Qed.

(** Case analysis on a character known to be a digit. *)
Ltac digit_cases c H :=
  destruct c as [[|] [|] [|] [|] [|] [|] [|] [|]];
  try (vm_compute in H; discriminate H).

Lemma isDigit_not_blank (c : ascii) : isDigit c = true -> isWhiteSpace c = false.
Proof. intros H; digit_cases c H; reflexivity. Qed.

Lemma digitString_noWhiteSpace (s : string) :
  digitString s = true -> noWhiteSpace s = true.
Proof.
  induction s as [|c s IH]; simpl; [reflexivity|].
  intros H; apply andb_true_iff in H as [Hc Hs].
  now rewrite (isDigit_not_blank c Hc), (IH Hs).
Qed.

Lemma stripSign_digit (c : ascii) (s : string) :
  isDigit c = true -> stripSign (String c s) = (1, String c s).
Proof. intros H; digit_cases c H; reflexivity. Qed.

Lemma stripHexPrefix_digits (s : string) :
  digitString s = true -> stripHexPrefix s = (10, s).
Proof.
  destruct s as [|c [|d s]]; [reflexivity| |]; intros H; simpl in H.
  - apply andb_true_iff in H as [Hc _]. digit_cases c Hc; reflexivity.
  - apply andb_true_iff in H as [Hc H]. apply andb_true_iff in H as [Hd _].
    digit_cases c Hc; digit_cases d Hd; reflexivity.
Qed.

(** [parseInt(n.toString())] is [n] for every integer [n]. *)
Lemma parseInt_toString (z : Z) : parseInt (toString z) = Fin z.
Proof.
  unfold toString, parseInt.
  destruct (Z.ltb_spec z 0) as [Hneg|Hpos].
  - change (trimStart (String "-" (natToString (- z))))
      with (String "-" (natToString (- z))).
    change (stripSign (String "-" (natToString (- z))))
      with (-1, natToString (- z)).
    cbv iota beta.
    rewrite stripHexPrefix_digits by (apply digitString_natToString; lia).
    destruct (scanDigits_natToString (- z)) as [j ->]; [lia|].
    f_equal; lia.
  - pose proof (digitString_natToString z Hpos) as Hd.
    rewrite trimStart_noWhiteSpace by (apply digitString_noWhiteSpace, Hd).
    destruct (scanDigits_natToString z Hpos) as [j Hj].
    destruct (natToString z) as [|c s] eqn:E; [discriminate Hj|].
    simpl in Hd. apply andb_true_iff in Hd as [Hc Hs].
    rewrite (stripSign_digit c s Hc).
    cbv iota beta.
    rewrite stripHexPrefix_digits by (simpl; now rewrite Hc, Hs).
    rewrite Hj. f_equal; lia.
Qed.

Lemma BigInt_digits (s : string) :
  digitString s = true -> isEmpty s = false -> BigInt s = allDigits 10 s.
Proof.
  intros Hd Hne. unfold BigInt.
  rewrite trim_noWhiteSpace by (apply digitString_noWhiteSpace, Hd).
  destruct s as [|c s]; [discriminate Hne|]. clear Hne.
  simpl in Hd. apply andb_true_iff in Hd as [Hc Hs].
  destruct s as [|d s].
  - digit_cases c Hc; reflexivity.
  - simpl in Hs. apply andb_true_iff in Hs as [Hd _].
    digit_cases c Hc; digit_cases d Hd; reflexivity.
Qed.

(** [BigInt(n.toString())] is [n] for every integer [n]. *)
Lemma BigInt_toString (z : Z) : BigInt (toString z) = Some z.
Proof.
  unfold toString.
  destruct (Z.ltb_spec z 0) as [Hneg|Hpos].
  - assert (Hd : digitString (natToString (- z)) = true)
      by (apply digitString_natToString; lia).
    unfold BigInt.
    rewrite trim_noWhiteSpace
      by (simpl; apply digitString_noWhiteSpace, Hd).
    cbv iota beta.
    rewrite allDigits_natToString by lia.
    simpl. f_equal; lia.
  - rewrite BigInt_digits.
    + apply allDigits_natToString, Hpos.
    + apply digitString_natToString, Hpos.
    + apply digitsFrom_nonempty.
Qed.

End NumberFacts.

(** ** The embedding on concrete inputs *)

Example toString_samples :
  toString 0 = "0" /\ toString 8453 = "8453" /\ toString (-5) = "-5"
  /\ toString (10 ^ 18) = "1000000000000000000".
Proof. repeat split; vm_compute; reflexivity. Qed.

Example parseInt_samples :
  parseInt "150" = Fin 150 /\ parseInt " -7px" = Fin (-7)
  /\ parseInt "0x1f" = Fin 31 /\ parseInt "px" = NaN.
Proof. repeat split; vm_compute; reflexivity. Qed.

Example BigInt_samples :
  BigInt "500000000000000000" = Some 500000000000000000
  /\ BigInt "-5" = Some (-5) /\ BigInt " 12 " = Some 12 /\ BigInt "" = Some 0
  /\ BigInt "0x10" = Some 16 /\ BigInt "1.5" = None /\ BigInt "-0x10" = None
  /\ BigInt "abc" = None /\ BigInt "-" = None.
Proof. repeat split; vm_compute; reflexivity. Qed.

(** The values viem's own documentation and tests give for its formatters. *)
Example formatUnits_samples :
  formatUnits 420000000000 9 = "420" /\ formatUnits 69 5 = "0.00069"
  /\ formatUnits 690 1 = "69" /\ formatUnits 1300000 5 = "13"
  /\ formatEther (10 ^ 18) = "1" /\ formatEther 500000000000000000 = "0.5"
  /\ formatEther (-1500000000000000000) = "-1.5" /\ formatEther 0 = "0".
Proof. repeat split; vm_compute; reflexivity. Qed.

Example trim_samples :
  trim "  Yes. " = "Yes." /\ toLowerCase "No, Maybe" = "no, maybe"
  /\ includes "no" "i do not know" = true /\ includes "yes" "maybe" = false.
Proof. repeat split; vm_compute; reflexivity. Qed.

(** A dry run and a trading run of the whole program on the spec's example. *)
Example main_dry_run :
  main noKeys (marketsWorld mixedMarkets)
  = [GraphQLRequest GRAPHQL_URL (queryVariables (marketsWorld mixedMarkets));
     ConsoleGroup "Found an active market..."; ConsoleLog "";
     ConsoleLog "Will it happen? #3"; ConsoleGroupEnd; ConsoleLog "";
     ConsoleGroup "Asking ChatGPT for an answer..."; ConsoleLog "";
     ConsoleLog ("OpenAI API key not found. Defaulting to " ++ dquote ++ "Yes" ++ dquote ++ ".");
     ConsoleGroupEnd; ConsoleLog "";
     ConsoleLog ("Retrieving a quote for a $1 wager on market outcome " ++ dquote
                 ++ "1000000000000000000" ++ dquote ++ "...");
     ConsoleLog "";
     HttpGet (quoterUrlPrefix "0xGroup" 3 ++ "1");
     ConsoleLog "Trade Size: 0.5";
     ConsoleLog "Add an Ethereum private key to your .env file to submit trades.";
     ConsoleLog ""; ConsoleLog "Done!"].
Proof. vm_compute. reflexivity. Qed.

Example main_trading_run_is_on_chain :
  filter isOnChain (main bothKeys (marketsWorld mixedMarkets))
  = [WriteContract "0xAccount" (approveCall "0xGroup");
     WaitForTransactionReceipt "0xhash-approve";
     WriteContract "0xAccount"
       (createTraderPositionCall "0xGroup" 3 500000000000000000 1762103605);
     WaitForTransactionReceipt "0xhash-createTraderPosition"].
Proof. vm_compute. reflexivity. Qed.

(** ** The market scan *)

Section MarketScan.

Lemma endTime_closingKey (m : MarketType) : endTime m = closingKey m.
Proof.
  unfold endTime, closingKey.
  destruct (endTimestamp m) as [t|]; [|reflexivity].
  destruct (t =? 0); [reflexivity | apply parseInt_toString].
Qed.

Lemma closingKey_not_NaN (m : MarketType) : closingKey m <> NaN.
Proof.
  unfold closingKey. destruct (endTimestamp m) as [t|]; [|discriminate].
  destruct (t =? 0); discriminate.
Qed.

Lemma lt_chain (a b c : Num) :
  c <> NaN -> lt a b = true -> lt c b = false -> lt a c = true.
Proof.
  destruct a, b, c; simpl; intros Hc H1 H2;
    try discriminate; try congruence; try reflexivity.
  apply Z.ltb_lt in H1. apply Z.ltb_ge in H2. apply Z.ltb_lt. lia.
Qed.

Lemma lt_trans (a b c : Num) :
  lt a b = true -> lt b c = true -> lt a c = true.
Proof.
  destruct a, b, c; simpl; intros H1 H2;
    try discriminate; try reflexivity.
  apply Z.ltb_lt in H1. apply Z.ltb_lt in H2. apply Z.ltb_lt. lia.
Qed.

Lemma before_notAfter (x r y : MarketType) :
  before x r -> notAfter r y -> before x y.
Proof.
  unfold before, notAfter. intros H1 H2.
  exact (lt_chain _ _ _ (closingKey_not_NaN y) H1 H2).
Qed.

Lemma before_trans (x r y : MarketType) : before x r -> before r y -> before x y.
Proof. unfold before. apply lt_trans. Qed.

Lemma earlier_None_never (acc : option MarketType) (x : MarketType) :
  earlier acc x <> None.
Proof.
  destruct acc as [e|]; simpl; [|discriminate].
  destruct (lt (endTime x) (endTime e)); discriminate.
Qed.

(** The reducer, run from [null], ends on the first earliest element. *)
Lemma scan_FirstEarliest (l : list MarketType) :
  match fold_left earlier l None with
  | Some m => FirstEarliest m l
  | None => l = []
  end.
Proof.
  induction l as [|x l IH] using rev_ind; [reflexivity|].
  rewrite fold_left_app. simpl.
  destruct (fold_left earlier l None) as [r|].
  - destruct IH as (pre & post & Hl & Hpre & Hpost).
    simpl. rewrite !endTime_closingKey.
    destruct (lt (closingKey x) (closingKey r)) eqn:E.
    + exists l, []. split; [reflexivity|]. split; [|intros y []].
      intros y Hy. rewrite Hl in Hy.
      apply in_app_or in Hy as [Hy|[<-|Hy]].
      * exact (before_trans _ _ _ E (Hpre y Hy)).
      * exact E.
      * exact (before_notAfter _ _ _ E (Hpost y Hy)).
    + exists pre, (post ++ [x])%list. split.
      * rewrite Hl, <- app_assoc. reflexivity.
      * split; [exact Hpre|].
        intros y Hy. apply in_app_or in Hy as [Hy|[<-|[]]].
        -- exact (Hpost y Hy).
        -- exact E.
  - subst l. simpl. exists [], []. repeat split; intros y [].
Qed.

Lemma nextMarket_publicMarkets (resp : option ResponseData) :
  nextMarket resp = fold_left earlier (publicMarkets resp) None.
Proof. destruct resp as [[[groups|]]|]; reflexivity. Qed.

Lemma publicMarkets_filter (resp : option ResponseData) :
  publicMarkets resp = filter isPublic (allMarkets resp).
Proof. destruct resp as [[[groups|]]|]; reflexivity. Qed.

Lemma isPublic_true (m : MarketType) : isPublic m = true <-> public m = Some true.
Proof.
  unfold isPublic. destruct (public m) as [[|]|]; split; congruence.
Qed.

(** The candidates are exactly the markets whose flag is the boolean true. *)
Lemma In_publicMarkets (resp : option ResponseData) (x : MarketType) :
  In x (publicMarkets resp) <-> In x (allMarkets resp) /\ public x = Some true.
Proof. rewrite publicMarkets_filter, filter_In, isPublic_true. reflexivity. Qed.

(** How [fetchNextClosingMarket] ends once the service has answered. *)
Lemma fetchNextClosingMarket_outcome (w : World) (resp : option ResponseData) :
  graphql w GRAPHQL_URL (queryVariables w) = Ok resp ->
  fetchNextClosingMarket w
  = ([GraphQLRequest GRAPHQL_URL (queryVariables w)],
     match nextMarket resp with
     | Some m => Ok m
     | None => Throw NO_ACTIVE_MARKETS
     end).
Proof.
  intros H. unfold fetchNextClosingMarket, perform. simpl. rewrite H.
  destruct (nextMarket resp); reflexivity.
Qed.

Lemma FirstEarliest_In (m : MarketType) (l : list MarketType) :
  FirstEarliest m l -> In m l.
Proof.
  intros (pre & post & -> & _). apply in_or_app. right. left. reflexivity.
Qed.

End MarketScan.

(** ** fetchNextClosingMarket: the claims *)

Lemma filter_none {A} (f : A -> bool) (l : list A) :
  (forall x, In x l -> f x = false) -> filter f l = [].
Proof.
  induction l as [|a l IH]; intros H; simpl; [reflexivity|].
  rewrite (H a (or_introl eq_refl)). apply IH.
  intros x Hx. apply H. right. exact Hx.
Qed.




(** C2. When no flattened market has its public flag true (an empty market
    set and an all-private one are instances), [fetchNextClosingMarket]
    issues its one request and throws the error whose message reads
    "No active markets found."; it returns no market. *)
Theorem C2_no_public_market_throws :
  forall (w : World) (resp : option ResponseData),
    graphql w GRAPHQL_URL (queryVariables w) = Ok resp ->
    (forall x, In x (allMarkets resp) -> public x <> Some true) ->
    fetchNextClosingMarket w
    = ([GraphQLRequest GRAPHQL_URL (queryVariables w)], Throw NO_ACTIVE_MARKETS)
    /\ Substring "No active markets" NO_ACTIVE_MARKETS.
Proof.
  intros w resp Hresp Hnone. split.
  - rewrite (fetchNextClosingMarket_outcome w resp Hresp).
    rewrite nextMarket_publicMarkets, publicMarkets_filter, filter_none.
    + reflexivity.
    + intros x Hx. specialize (Hnone x Hx).
      destruct (isPublic x) eqn:E; [|reflexivity].
      apply isPublic_true in E. contradiction.
  - exists "", " found.". reflexivity.
Qed.

(** The two instances the claim names: no market at all, and private ones only. *)
Lemma C2_no_public_market_throws_witness :
  (outcome (fetchNextClosingMarket (marketsWorld [])) = Throw NO_ACTIVE_MARKETS)
  /\ (outcome (fetchNextClosingMarket (marketsWorld allPrivate)) = Throw NO_ACTIVE_MARKETS).
Proof.
  split.
  - refine (f_equal snd (proj1 (C2_no_public_market_throws
              (marketsWorld []) (sampleResponse []) eq_refl _))).
    intros x [].
  - refine (f_equal snd (proj1 (C2_no_public_market_throws
              (marketsWorld allPrivate) (sampleResponse allPrivate) eq_refl _))).
    intros x [<-|[<-|[]]]; discriminate.
Defined.

(** C10, as amended. A public market without an end timestamp is compared
    as +infinity, and so is one stamped 0. When the function returns a
    market without a timestamp, every public market has its timestamp
    missing or equal to 0; and when every public market is such, the first
    public market encountered is the one returned. *)
Theorem C10_missing_timestamp_is_infinity :
  forall (w : World) (resp : option ResponseData),
    graphql w GRAPHQL_URL (queryVariables w) = Ok resp ->
    (forall x, endTimestamp x = None \/ endTimestamp x = Some 0 ->
               endTime x = Infinity)
    /\ (forall m, outcome (fetchNextClosingMarket w) = Ok m ->
                  endTimestamp m = None ->
                  forall x, In x (publicMarkets resp) ->
                            endTimestamp x = None \/ endTimestamp x = Some 0)
    /\ (forall first rest,
           publicMarkets resp = first :: rest ->
           (forall x, In x (publicMarkets resp) ->
                      endTimestamp x = None \/ endTimestamp x = Some 0) ->
           outcome (fetchNextClosingMarket w) = Ok first).
Proof.
  intros w resp Hresp.
  assert (Hinf : forall x, endTimestamp x = None \/ endTimestamp x = Some 0 ->
                           closingKey x = Infinity).
  { intros x [H|H]; unfold closingKey; rewrite H; reflexivity. }
  rewrite (fetchNextClosingMarket_outcome w resp Hresp).
  unfold outcome; simpl snd.
  rewrite nextMarket_publicMarkets.
  pose proof (scan_FirstEarliest (publicMarkets resp)) as Hscan.
  split; [|split].
  - intros x Hx. rewrite endTime_closingKey. exact (Hinf x Hx).
  - intros m Hm Hnone x Hx.
    destruct (fold_left earlier (publicMarkets resp) None) as [r|]; [|discriminate].
    injection Hm as ->.
    destruct Hscan as (pre & post & Hl & Hpre & Hpost).
    assert (Hx' : before m x \/ m = x \/ notAfter m x).
    { rewrite Hl in Hx. apply in_app_or in Hx as [Hx|[Hx|Hx]]; auto. }
    unfold before, notAfter in Hx'.
    rewrite (Hinf m (or_introl Hnone)) in Hx'.
    destruct Hx' as [Hx'|[<-|Hx']]; [discriminate | now left |].
    unfold closingKey in Hx'.
    destruct (endTimestamp x) as [t|]; [|now left].
    destruct (Z.eqb_spec t 0) as [E|E]; [right; now rewrite E | discriminate].
  - intros first rest Hl Hall.
    destruct (fold_left earlier (publicMarkets resp) None) as [r|];
      [|rewrite Hscan in Hl; discriminate].
    destruct Hscan as (pre & post & Hl' & Hpre & _).
    destruct pre as [|y pre].
    + rewrite Hl in Hl'. injection Hl' as -> _. reflexivity.
    + specialize (Hpre y (or_introl eq_refl)). unfold before in Hpre.
      rewrite (Hinf r) in Hpre; [discriminate|].
      apply Hall. rewrite Hl'. apply in_or_app. right. left. reflexivity.
Qed.

Lemma C10_missing_timestamp_is_infinity_witness :
  endTime firstUnstamped = Infinity
  /\ outcome (fetchNextClosingMarket (marketsWorld unstamped)) = Ok firstUnstamped.
Proof.
  destruct (C10_missing_timestamp_is_infinity
              (marketsWorld unstamped) (sampleResponse unstamped) eq_refl)
    as (Hinf & _ & Hfirst).
  split.
  - apply Hinf. left. reflexivity.
  - apply (Hfirst firstUnstamped
             [withGroup (mkGroup (Some "0xGroup") None) (sampleMarket 3 None true)]).
    + reflexivity.
    + intros x [<-|[<-|[]]]; left; reflexivity.
Defined.

(** C10 as stated fails: a public market without a timestamp, met ahead of
    a public market stamped 0, is the one returned although the other has a
    numeric end timestamp. *)
Lemma C10_counterexample :
  ~ (forall (w : World) (resp : option ResponseData) (m x : MarketType) (t : Z),
       graphql w GRAPHQL_URL (queryVariables w) = Ok resp ->
       outcome (fetchNextClosingMarket w) = Ok m ->
       endTimestamp m = None ->
       In x (publicMarkets resp) ->
       endTimestamp x <> Some t).
Proof.
  intros H.
  apply (H (marketsWorld missingThenZero) (sampleResponse missingThenZero)
           (withGroup (mkGroup (Some "0xGroup") None) (sampleMarket 1 None true))
           (withGroup (mkGroup (Some "0xGroup") None) (sampleMarket 2 (Some 0) true))
           0).
  - reflexivity.
  - vm_compute. reflexivity.
  - reflexivity.
  - right. left. reflexivity.
  - reflexivity.
Qed.

(** ** getPrediction: the claims *)

Section Prediction.

Variables (env : Env) (w : World) (question : option string).

Lemma getPrediction_without_key :
  isSet (OPENAI_API_KEY env) = false ->
  getPrediction env w question
  = ([ConsoleLog ("OpenAI API key not found. Defaulting to "
                  ++ dquote ++ "Yes" ++ dquote ++ ".")],
     Ok parseEther_1).
Proof. intros H. unfold getPrediction. rewrite H. reflexivity. Qed.

Lemma getPrediction_with_answer (content : string) :
  isSet (OPENAI_API_KEY env) = true ->
  chat w question = Ok (Some content) ->
  getPrediction env w question
  = ([ChatCompletion question; ConsoleLog content], parseAnswer content).
Proof.
  intros Hkey Hchat. unfold getPrediction, perform. rewrite Hkey. simpl.
  rewrite Hchat. simpl. destruct (parseAnswer content); reflexivity.
Qed.

Lemma parseAnswer_values (content : string) (v : Z) :
  parseAnswer content = Ok v -> v = 0 \/ v = 10 ^ 18.
Proof.
  unfold parseAnswer.
  destruct (includes "yes" _); [intros [= <-]; right; reflexivity|].
  destruct (includes "no" _); [intros [= <-]; left; reflexivity | discriminate].
Qed.

End Prediction.


(** What the two tests of [parseAnswer] see is whether the word occurs in
    the lower-cased text; the trim makes no difference to that. *)
Lemma includes_answer (p content : string) :
  noWhiteSpace p = true -> isEmpty p = false ->
  includes p (toLowerCase (trim content)) = includes p (toLowerCase content).
Proof. intros Hp Hne. rewrite toLowerCase_trim. now apply includes_trim. Qed.

(** C3. With a key configured and a textual answer from the model,
    [getPrediction] trims and lower-cases the answer; if the result contains
    "yes" it returns 10^18, otherwise if it contains "no" it returns 0,
    otherwise it throws "Couldn't parse a prediction". In particular
    "Yes, things look good." gives 10^18, "No." gives 0 and "Maybe" the
    parse failure. *)
Theorem C3_prediction_from_answer :
  forall (env : Env) (w : World) (question : option string) (content : string),
    isSet (OPENAI_API_KEY env) = true ->
    chat w question = Ok (Some content) ->
    (Substring "yes" (toLowerCase (trim content)) ->
     outcome (getPrediction env w question) = Ok (10 ^ 18))
    /\ (~ Substring "yes" (toLowerCase (trim content)) ->
        Substring "no" (toLowerCase (trim content)) ->
        outcome (getPrediction env w question) = Ok 0)
    /\ (~ Substring "yes" (toLowerCase (trim content)) ->
        ~ Substring "no" (toLowerCase (trim content)) ->
        outcome (getPrediction env w question) = Throw "Couldn't parse a prediction")
    /\ (content = "Yes, things look good." ->
        outcome (getPrediction env w question) = Ok (10 ^ 18))
    /\ (content = "No." -> outcome (getPrediction env w question) = Ok 0)
    /\ (content = "Maybe" ->
        outcome (getPrediction env w question) = Throw "Couldn't parse a prediction").
Proof.
  intros env w question content Hkey Hchat.
  rewrite (getPrediction_with_answer env w question content Hkey Hchat).
  unfold outcome, parseAnswer; simpl snd.
  repeat split.
  - intros Hyes. apply includes_Substring in Hyes. now rewrite Hyes.
  - intros Hyes Hno.
    apply includes_false_iff in Hyes. apply includes_Substring in Hno.
    now rewrite Hyes, Hno.
  - intros Hyes Hno.
    apply includes_false_iff in Hyes. apply includes_false_iff in Hno.
    now rewrite Hyes, Hno.
  - intros ->. reflexivity.
  - intros ->. reflexivity.
  - intros ->. reflexivity.
Qed.

Lemma C3_prediction_from_answer_witness :
  outcome (getPrediction chatKeyOnly (answerWorld "Yes, things look good.") None)
  = Ok (10 ^ 18)
  /\ outcome (getPrediction chatKeyOnly (answerWorld "No.") None) = Ok 0
  /\ outcome (getPrediction chatKeyOnly (answerWorld "Maybe") None)
     = Throw "Couldn't parse a prediction".
Proof.
  split; [|split].
  - apply (C3_prediction_from_answer chatKeyOnly
             (answerWorld "Yes, things look good.") None "Yes, things look good.");
      reflexivity.
  - apply (C3_prediction_from_answer chatKeyOnly (answerWorld "No.") None "No.");
      reflexivity.
  - apply (C3_prediction_from_answer chatKeyOnly (answerWorld "Maybe") None "Maybe");
      reflexivity.
Defined.



(** C5. Without an OPENAI_API_KEY (unset, or set to the empty string),
    [getPrediction] logs that it defaults to "Yes" and returns 10^18 for
    every question; no call to the chat endpoint is among its events. *)
Theorem C5_no_key_defaults_to_yes :
  forall (env : Env) (w : World) (question : option string),
    isSet (OPENAI_API_KEY env) = false ->
    outcome (getPrediction env w question) = Ok (10 ^ 18)
    /\ trace (getPrediction env w question)
       = [ConsoleLog ("OpenAI API key not found. Defaulting to "
                      ++ dquote ++ "Yes" ++ dquote ++ ".")]
    /\ forall e, In e (trace (getPrediction env w question)) -> isChatCall e = false.
Proof.
  intros env w question Hkey.
  rewrite (getPrediction_without_key env w question Hkey).
  repeat split.
  intros e [<-|[]]. reflexivity.
Qed.

Lemma C5_no_key_defaults_to_yes_witness :
  outcome (getPrediction noKeys (answerWorld "No.") (Some "Will it rain?")) = Ok (10 ^ 18)
  /\ trace (getPrediction noKeys (answerWorld "No.") (Some "Will it rain?"))
     = [ConsoleLog ("OpenAI API key not found. Defaulting to "
                    ++ dquote ++ "Yes" ++ dquote ++ ".")]
  /\ forall e, In e (trace (getPrediction noKeys (answerWorld "No.") (Some "Will it rain?"))) ->
               isChatCall e = false.
Proof.
  apply (C5_no_key_defaults_to_yes noKeys (answerWorld "No.") (Some "Will it rain?")).
  reflexivity.
Defined.

(** C9. A value returned by [getPrediction] is 0 or 10^18 and nothing else,
    whatever the environment, the question and the model's answer. *)
Theorem C9_prediction_is_zero_or_unit :
  forall (env : Env) (w : World) (question : option string) (v : Z),
    outcome (getPrediction env w question) = Ok v ->
    v = 0 \/ v = 10 ^ 18.
Proof.
  intros env w question v.
  destruct (isSet (OPENAI_API_KEY env)) eqn:Hkey.
  - destruct (chat w question) as [[content|]|e] eqn:Hchat.
    + rewrite (getPrediction_with_answer env w question content Hkey Hchat).
      apply parseAnswer_values.
    + unfold getPrediction, perform. rewrite Hkey, Hchat. discriminate.
    + unfold getPrediction, perform. rewrite Hkey, Hchat. discriminate.
  - rewrite (getPrediction_without_key env w question Hkey).
    intros [= <-]. right. reflexivity.
Qed.

Lemma C9_prediction_is_zero_or_unit_witness :
  (0 = 0 \/ 0 = 10 ^ 18) /\ (10 ^ 18 = 0 \/ 10 ^ 18 = 10 ^ 18).
Proof.
  split.
  - apply (C9_prediction_is_zero_or_unit chatKeyOnly
             (answerWorld "42, so no.") (Some "How many?") 0).
    reflexivity.
  - apply (C9_prediction_is_zero_or_unit noKeys
             (answerWorld "42") (Some "How many?") (10 ^ 18)).
    reflexivity.
Defined.

(** ** getQuote: the claims *)

Lemma quoterUrl_split (marketAddress : Address) (marketId prediction : Z) :
  quoterUrl marketAddress marketId prediction
  = quoterUrlPrefix marketAddress marketId ++ expectedPriceDecimalString prediction.
Proof.
  unfold quoterUrl, quoterUrlPrefix.
  change (toString base_id) with "8453".
  change (toString WAGER_AMOUNT) with "1000000000000000000".
  rewrite !append_assoc. cbn [append]. reflexivity.
Qed.

Lemma getQuote_first_event (w : World) (marketAddress : Address)
  (marketId prediction : Z) :
  exists rest,
    trace (getQuote w marketAddress marketId prediction)
    = HttpGet (quoterUrl marketAddress marketId prediction) :: rest.
Proof.
  unfold getQuote, perform. simpl.
  destruct (httpGet w _) as [response|e]; [|exists []; reflexivity].
  destruct (ok response); simpl.
  - destruct (json response) as [quote|e]; simpl; [|exists []; reflexivity].
    destruct (BigInt (maxSize quote)); exists []; reflexivity.
  - exists [ConsoleError (quoterFailure response)]. reflexivity.
Qed.

Lemma getQuote_success (w : World) (marketAddress : Address)
  (marketId prediction : Z) (response : HttpResponse) (quote : Quote) :
  httpGet w (quoterUrl marketAddress marketId prediction) = Ok response ->
  ok response = true ->
  json response = Ok quote ->
  getQuote w marketAddress marketId prediction
  = ([HttpGet (quoterUrl marketAddress marketId prediction)],
     match BigInt (maxSize quote) with
     | Some positionSize => Ok positionSize
     | None => Throw ("SyntaxError: Cannot convert " ++ maxSize quote ++ " to a BigInt")
     end).
Proof.
  intros Hget Hok Hjson. unfold getQuote, perform. simpl.
  rewrite Hget, Hok. simpl. rewrite Hjson. simpl.
  destruct (BigInt (maxSize quote)); reflexivity.
Qed.

(** C6, the code at the claim's two inputs. The request [getQuote] sends
    ends in the expected price: for prediction 0 that is the sentinel
    "0.0000009"; for prediction 10^18 it is [formatEther (10^18)], which is
    the string "1" and not "1.0" as the claim and the comment on line 127
    have it. *)
Theorem C6_expected_price_strings :
  forall (w : World) (marketAddress : Address) (marketId : Z),
    (exists rest,
        trace (getQuote w marketAddress marketId 0)
        = HttpGet (quoterUrlPrefix marketAddress marketId ++ "0.0000009") :: rest)
    /\ (exists rest,
           trace (getQuote w marketAddress marketId (10 ^ 18))
           = HttpGet (quoterUrlPrefix marketAddress marketId ++ "1") :: rest)
    /\ expectedPriceDecimalString 0 = "0.0000009"
    /\ expectedPriceDecimalString (10 ^ 18) = "1"
    /\ expectedPriceDecimalString (10 ^ 18) <> "1.0".
Proof.
  intros w marketAddress marketId.
  assert (E0 : expectedPriceDecimalString 0 = "0.0000009") by reflexivity.
  assert (E1 : expectedPriceDecimalString (10 ^ 18) = "1")
    by (vm_compute; reflexivity).
  split; [|split; [|split; [exact E0 | split; [exact E1|]]]].
  - destruct (getQuote_first_event w marketAddress marketId 0) as [rest H].
    exists rest. rewrite H, quoterUrl_split, E0. reflexivity.
  - destruct (getQuote_first_event w marketAddress marketId (10 ^ 18)) as [rest H].
    exists rest. rewrite H, quoterUrl_split, E1. reflexivity.
  - rewrite E1. discriminate.
Qed.

(** C7, as amended. For a successful quoter response whose body has a
    [maxSize] string, [getQuote] returns what [BigInt] reads in it and
    throws when [BigInt] does: the decimal text of any integer, negative
    ones included, is returned as that integer, so the result is signed;
    "500000000000000000" yields 500000000000000000. *)
Theorem C7_position_size_is_BigInt_of_maxSize :
  forall (w : World) (marketAddress : Address) (marketId prediction : Z)
         (response : HttpResponse) (quote : Quote),
    httpGet w (quoterUrl marketAddress marketId prediction) = Ok response ->
    ok response = true ->
    json response = Ok quote ->
    (forall z, outcome (getQuote w marketAddress marketId prediction) = Ok z
               <-> BigInt (maxSize quote) = Some z)
    /\ (forall z, maxSize quote = toString z ->
                  outcome (getQuote w marketAddress marketId prediction) = Ok z)
    /\ (maxSize quote = "500000000000000000" ->
        outcome (getQuote w marketAddress marketId prediction)
        = Ok 500000000000000000).
Proof.
  intros w marketAddress marketId prediction response quote Hget Hok Hjson.
  rewrite (getQuote_success _ _ _ _ _ _ Hget Hok Hjson).
  unfold outcome; simpl snd.
  split; [|split].
  - intros z. destruct (BigInt (maxSize quote)); split; congruence.
  - intros z ->. now rewrite BigInt_toString.
  - intros ->. reflexivity.
Qed.

Lemma C7_position_size_is_BigInt_of_maxSize_witness :
  outcome (getQuote (quoteWorld "500000000000000000") "0xGroup" 1 (10 ^ 18))
  = Ok 500000000000000000.
Proof.
  apply (C7_position_size_is_BigInt_of_maxSize
           (quoteWorld "500000000000000000") "0xGroup" 1 (10 ^ 18)
           {| ok := true; status := 200; text := "";
              json := Ok (mkQuote "500000000000000000") |}
           (mkQuote "500000000000000000"));
    reflexivity.
Defined.

(** C7 as stated fails: for the body whose [maxSize] is "-5" the function
    returns -5, which is no unsigned magnitude. *)
Lemma C7_counterexample :
  ~ (forall (w : World) (marketAddress : Address) (marketId prediction : Z)
            (response : HttpResponse) (quote : Quote),
        httpGet w (quoterUrl marketAddress marketId prediction) = Ok response ->
        ok response = true ->
        json response = Ok quote ->
        exists n, 0 <= n
                  /\ outcome (getQuote w marketAddress marketId prediction) = Ok n).
Proof.
  intros H.
  destruct (H (quoteWorld "-5") "0xGroup" 1 0
              {| ok := true; status := 200; text := ""; json := Ok (mkQuote "-5") |}
              (mkQuote "-5") eq_refl eq_refl eq_refl) as (n & Hn & Hq).
  vm_compute in Hq. injection Hq as <-. lia.
Qed.

(** ** trade and the top-level block: the claims *)

Section Traces.

Context {A B : Type}.

Lemma trace_bind (m : IO A) (f : A -> IO B) :
  trace (bind m f)
  = (trace m ++ match outcome m with
                | Ok a => trace (f a)
                | Throw _ => []
                end)%list.
Proof.
  destruct m as [t [a|e]]; simpl.
  - destruct (f a); reflexivity.
  - now rewrite app_nil_r.
Qed.

Lemma offChain_bind (m : IO A) (f : A -> IO B) :
  offChain m -> (forall a, offChain (f a)) -> offChain (bind m f).
Proof.
  intros Hm Hf e. rewrite trace_bind. intros He.
  apply in_app_or in He as [He|He]; [exact (Hm e He)|].
  destruct (outcome m) as [a|]; [exact (Hf a e He) | destruct He].
Qed.

Lemma In_bind_left (m : IO A) (f : A -> IO B) (e : Event) :
  In e (trace m) -> In e (trace (bind m f)).
Proof. intros H. rewrite trace_bind. apply in_or_app. left. exact H. Qed.

Lemma In_bind_right (m : IO A) (f : A -> IO B) (a : A) (e : Event) :
  outcome m = Ok a -> In e (trace (f a)) -> In e (trace (bind m f)).
Proof.
  intros Hm H. rewrite trace_bind, Hm. apply in_or_app. right. exact H.
Qed.

End Traces.

Lemma offChain_silent {A} (r : Result A) : offChain (([], r) : IO A).
Proof. intros e []. Qed.

Lemma offChain_one {A} (e : Event) (r : Result A) :
  isOnChain e = false -> offChain (([e], r) : IO A).
Proof. intros H x [<-|[]]. exact H. Qed.

Lemma fetchNextClosingMarket_offChain (w : World) :
  offChain (fetchNextClosingMarket w).
Proof.
  unfold fetchNextClosingMarket. apply offChain_bind.
  - now apply offChain_one.
  - intros resp. destruct (nextMarket resp); apply offChain_silent.
Qed.

Lemma getPrediction_offChain (env : Env) (w : World) (question : option string) :
  offChain (getPrediction env w question).
Proof.
  unfold getPrediction. destruct (negb (isSet (OPENAI_API_KEY env))).
  - apply offChain_bind; [now apply offChain_one | intros _; apply offChain_silent].
  - apply offChain_bind; [now apply offChain_one|].
    intros [content|]; apply offChain_bind;
      try (now apply offChain_one); intros _; apply offChain_silent.
Qed.

Lemma getQuote_offChain (w : World) (marketAddress : Address)
  (marketId prediction : Z) :
  offChain (getQuote w marketAddress marketId prediction).
Proof.
  unfold getQuote. apply offChain_bind; [now apply offChain_one|].
  intros response. destruct (negb (ok response)).
  - apply offChain_bind; [now apply offChain_one | intros _; apply offChain_silent].
  - apply offChain_bind; [apply offChain_silent|].
    intros quote. destruct (BigInt (maxSize quote)); apply offChain_silent.
Qed.

Lemma settle_without_key (env : Env) (w : World) (marketGroupAddress : Address)
  (marketId positionSize : Z) :
  isSet (ETHEREUM_PRIVATE_KEY env) = false ->
  settle env w marketGroupAddress marketId positionSize
  = ([ConsoleLog (tradeSizeLine positionSize);
      ConsoleLog "Add an Ethereum private key to your .env file to submit trades.";
      ConsoleLog ""],
     Ok tt).
Proof. intros H. unfold settle. rewrite H. reflexivity. Qed.

Lemma run_offChain (env : Env) (w : World) :
  isSet (ETHEREUM_PRIVATE_KEY env) = false -> offChain (run env w).
Proof.
  intros Hkey. unfold run.
  apply offChain_bind; [apply fetchNextClosingMarket_offChain | intros market].
  do 7 (apply offChain_bind; [now apply offChain_one | intros _]).
  apply offChain_bind; [apply getPrediction_offChain | intros prediction].
  do 4 (apply offChain_bind; [now apply offChain_one | intros _]).
  apply offChain_bind.
  { unfold groupAddressOf. destruct (marketGroup market); apply offChain_silent. }
  intros marketGroupAddress.
  apply offChain_bind; [apply getQuote_offChain | intros positionSize].
  apply offChain_bind; [|intros _; now apply offChain_one].
  rewrite (settle_without_key _ _ _ _ _ Hkey).
  intros e [<-|[<-|[<-|[]]]]; reflexivity.
Qed.

Lemma main_trace (env : Env) (w : World) (e : Event) :
  In e (main env w) ->
  In e (trace (run env w)) \/ exists message, e = ConsoleError message.
Proof.
  unfold main, trace. destruct (run env w) as [t [u|message]]; simpl.
  - now left.
  - intros H. apply in_app_or in H as [H|[<-|[]]]; [now left|].
    right. now exists message.
Qed.

Lemma trace_in_main (env : Env) (w : World) (e : Event) :
  In e (trace (run env w)) -> In e (main env w).
Proof.
  unfold main, trace. destruct (run env w) as [t [u|message]]; simpl.
  - trivial.
  - intros H. apply in_or_app. now left.
Qed.

Lemma trade_without_key (env : Env) (w : World) (marketAddress : Address)
  (marketId positionSize : Z) :
  isSet (ETHEREUM_PRIVATE_KEY env) = false ->
  trade env w marketAddress marketId positionSize = ([], Throw KEY_NOT_SET).
Proof.
  unfold trade, isSet.
  destruct (ETHEREUM_PRIVATE_KEY env) as [[|c k]|]; [reflexivity | discriminate | reflexivity].
Qed.

(** C8. Without an ETHEREUM_PRIVATE_KEY (unset, or the empty string) a run
    of the program contains no on-chain operation, neither a transaction
    nor the wait for one; once a market, a prediction and a quote have been
    obtained it prints "Trade Size: " followed by the size formatted in
    ether; and [trade] called on its own throws at once, before any event
    at all. *)
Theorem C8_no_key_no_chain_call :
  forall (env : Env) (w : World),
    isSet (ETHEREUM_PRIVATE_KEY env) = false ->
    (forall e, In e (main env w) -> isOnChain e = false)
    /\ (forall market prediction marketGroupAddress positionSize,
           outcome (fetchNextClosingMarket w) = Ok market ->
           outcome (getPrediction env w (question market)) = Ok prediction ->
           outcome (groupAddressOf market) = Ok marketGroupAddress ->
           outcome (getQuote w marketGroupAddress (marketId market) prediction)
           = Ok positionSize ->
           In (ConsoleLog ("Trade Size: " ++ formatEther positionSize)) (main env w))
    /\ (forall marketAddress marketId positionSize,
           trade env w marketAddress marketId positionSize
           = ([], Throw "Ethereum private key is not set in environment variables.")).
Proof.
  intros env w Hkey. split; [|split].
  - intros e He. apply main_trace in He as [He|[message ->]]; [|reflexivity].
    exact (run_offChain env w Hkey e He).
  - intros market prediction marketGroupAddress positionSize Hm Hp Ha Hq.
    apply trace_in_main. unfold run.
    eapply In_bind_right; [exact Hm|].
    do 7 (eapply In_bind_right; [reflexivity|]).
    eapply In_bind_right; [exact Hp|].
    do 4 (eapply In_bind_right; [reflexivity|]).
    eapply In_bind_right; [exact Ha|].
    eapply In_bind_right; [exact Hq|].
    apply In_bind_left.
    rewrite (settle_without_key _ _ _ _ _ Hkey). left. reflexivity.
  - intros marketAddress marketId positionSize.
    exact (trade_without_key env w marketAddress marketId positionSize Hkey).
Qed.

Lemma C8_no_key_no_chain_call_witness :
  (forall e, In e (main noKeys (marketsWorld mixedMarkets)) -> isOnChain e = false)
  /\ In (ConsoleLog "Trade Size: 0.5") (main noKeys (marketsWorld mixedMarkets))
  /\ trade noKeys (marketsWorld mixedMarkets) "0xGroup" 3 500000000000000000
     = ([], Throw "Ethereum private key is not set in environment variables.").
Proof.
  destruct (C8_no_key_no_chain_call noKeys (marketsWorld mixedMarkets) eq_refl)
    as (Hquiet & Hprint & Htrade).
  split; [exact Hquiet|]. split; [|apply Htrade].
  apply (Hprint
           (withGroup (mkGroup (Some "0xGroup") None) (sampleMarket 3 (Some 150) true))
           (10 ^ 18) "0xGroup" 500000000000000000);
    vm_compute; reflexivity.
Defined.

(** * Further properties of the program *)

(** ** fetchNextClosingMarket *)

Section Selection.



Lemma flattenMarkets_In (groups : list MarketGroupType) (m : MarketType) :
  In m (flattenMarkets groups) ->
  exists group ms m0,
    In group groups /\ markets group = Some ms /\ In m0 ms /\ m = withGroup group m0.
Proof.
  unfold flattenMarkets. intros H.
  apply in_flat_map in H as (group & Hg & Hm).
  destruct (markets group) as [ms|] eqn:E; [|destruct Hm].
  apply in_map_iff in Hm as (m0 & <- & Hm0).
  exists group, ms, m0. repeat split; assumption.
Qed.

End Selection.

(** X1. A market returned by [fetchNextClosingMarket] is a market of one of
    the response's groups with that group's address attached: its question,
    id, timestamp and flag are the listed market's, and reading
    [market.marketGroup!.address] off it (line 208) cannot fail. *)
Theorem X1_fetched_market_carries_its_group :
  forall (w : World) (resp : option ResponseData) (m : MarketType),
    graphql w GRAPHQL_URL (queryVariables w) = Ok resp ->
    outcome (fetchNextClosingMarket w) = Ok m ->
    exists groups group ms m0,
      resp = Some (mkResponse (Some groups))
      /\ In group groups /\ markets group = Some ms /\ In m0 ms
      /\ question m = question m0 /\ marketId m = marketId m0
      /\ endTimestamp m = endTimestamp m0 /\ public m = public m0
      /\ marketGroup m = Some (mkRef (address group))
      /\ groupAddressOf m = ([], Ok (showNullable (address group))).
Proof.
  intros w resp m Hresp Hm.
  rewrite (fetchNextClosingMarket_outcome w resp Hresp) in Hm.
  unfold outcome in Hm; simpl in Hm.
  rewrite nextMarket_publicMarkets in Hm.
  pose proof (scan_FirstEarliest (publicMarkets resp)) as Hscan.
  destruct (fold_left earlier (publicMarkets resp) None) as [r|]; [|discriminate].
  injection Hm as ->.
  apply FirstEarliest_In, In_publicMarkets in Hscan as [Hin _].
  destruct resp as [[[groups|]]|]; try destruct Hin.
  destruct (flattenMarkets_In groups m Hin) as (group & ms & m0 & Hg & Hms & Hm0 & ->).
  exists groups, group, ms, m0. repeat split; assumption.
Qed.

Lemma X1_fetched_market_carries_its_group_witness :
  exists groups group ms m0,
    sampleResponse mixedMarkets = Some (mkResponse (Some groups))
    /\ In group groups /\ markets group = Some ms /\ In m0 ms
    /\ question closingAt150 = question m0 /\ marketId closingAt150 = marketId m0
    /\ endTimestamp closingAt150 = endTimestamp m0 /\ public closingAt150 = public m0
    /\ marketGroup closingAt150 = Some (mkRef (address group))
    /\ groupAddressOf closingAt150 = ([], Ok (showNullable (address group))).
Proof.
  apply (X1_fetched_market_carries_its_group
           (marketsWorld mixedMarkets) (sampleResponse mixedMarkets) closingAt150);
    reflexivity.
Defined.





(** X4. The [currentTime] variable of the query (line 43) is the decimal
    text of the clock reading in whole seconds: read back as an integer it is
    a second [s] with [s * 1000 <= now < (s + 1) * 1000]. The request is made
    once, to the fixed endpoint, whatever the service answers. *)
Theorem X4_query_time_is_the_clock_in_seconds :
  forall (w : World),
    trace (fetchNextClosingMarket w) = [GraphQLRequest GRAPHQL_URL (queryVariables w)]
    /\ exists s,
         BigInt (currentTime (queryVariables w)) = Some s
         /\ parseInt (currentTime (queryVariables w)) = Fin s
         /\ s * 1000 <= nowAtQuery w < (s + 1) * 1000.
Proof.
  intros w. split.
  - unfold fetchNextClosingMarket. rewrite trace_bind.
    unfold perform, outcome, trace; simpl.
    destruct (graphql w GRAPHQL_URL (queryVariables w)) as [resp|e]; [|reflexivity].
    destruct (nextMarket resp); reflexivity.
  - exists (nowAtQuery w / 1000). simpl currentTime.
    rewrite BigInt_toString, parseInt_toString.
    repeat split.
    + pose proof (Z.mul_div_le (nowAtQuery w) 1000). lia.
    + pose proof (Z.mul_succ_div_gt (nowAtQuery w) 1000). lia.
Qed.

(** ** getPrediction *)

Section Reading.

Lemma lowerChar_idem (c : ascii) : lowerChar (lowerChar c) = lowerChar c.
Proof. destruct c as [[|] [|] [|] [|] [|] [|] [|] [|]]; reflexivity. Qed.

Lemma toLowerCase_idem (s : string) : toLowerCase (toLowerCase s) = toLowerCase s.
Proof.
  induction s as [|c s IH]; simpl; [reflexivity|].
  now rewrite lowerChar_idem, IH.
Qed.

(** The reading of an answer depends on its lower-cased text alone. *)
Lemma parseAnswer_spec (content : string) :
  parseAnswer content
  = if includes "yes" (toLowerCase content) then Ok parseEther_1
    else if includes "no" (toLowerCase content) then Ok 0
    else Throw COULD_NOT_PARSE.
Proof.
  unfold parseAnswer. now rewrite !includes_answer by reflexivity.
Qed.

Lemma trimStart_blank_app (pad s : string) :
  blank pad = true -> trimStart (pad ++ s) = trimStart s.
Proof.
  induction pad as [|c pad IH]; simpl; [reflexivity|].
  intros H. apply andb_true_iff in H as [Hc Hpad].
  rewrite Hc. exact (IH Hpad).
Qed.

Lemma trimEnd_blank (pad : string) : blank pad = true -> trimEnd pad = EmptyString.
Proof.
  induction pad as [|c pad IH]; simpl; [reflexivity|].
  intros H. apply andb_true_iff in H as [Hc Hpad].
  now rewrite (IH Hpad), Hc.
Qed.

Lemma trimEnd_app_blank (s pad : string) :
  blank pad = true -> trimEnd (s ++ pad) = trimEnd s.
Proof.
  intros Hpad. induction s as [|c s IH]; simpl.
  - exact (trimEnd_blank pad Hpad).
  - now rewrite IH.
Qed.

(** Blank padding around a text is invisible to a search for a word. *)
Lemma includes_padded (p before s after : string) :
  noWhiteSpace p = true -> isEmpty p = false ->
  blank before = true -> blank after = true ->
  includes p (before ++ s ++ after) = includes p s.
Proof.
  intros Hp Hne Hb Ha.
  rewrite <- (includes_trimStart p (before ++ s ++ after) Hp Hne).
  rewrite (trimStart_blank_app _ _ Hb), (includes_trimStart p _ Hp Hne).
  rewrite <- (includes_trimEnd p (s ++ after) Hp Hne).
  rewrite (trimEnd_app_blank _ _ Ha). exact (includes_trimEnd p s Hp Hne).
Qed.

Lemma blank_toLowerCase (s : string) : blank (toLowerCase s) = blank s.
Proof.
  induction s as [|c s IH]; simpl; [reflexivity|].
  now rewrite isWhiteSpace_lowerChar, IH.
Qed.

Lemma Substring_embedded (p a s b : string) :
  Substring p s -> Substring p (a ++ s ++ b).
Proof.
  intros (pre & post & ->).
  exists (a ++ pre), (post ++ b). now rewrite !append_assoc.
Qed.

Lemma includes_embedded (p a s b : string) :
  includes p s = true -> includes p (a ++ s ++ b) = true.
Proof.
  intros H. apply includes_Substring, Substring_embedded, includes_Substring, H.
Qed.

Lemma hasLetter_occurs (l : ascii) (s pre post : string) :
  toLowerCase s = pre ++ String l post -> hasLetter l s = true.
Proof.
  revert pre; induction s as [|c s IH]; intros [|x pre] H; simpl in H.
  - discriminate.
  - discriminate.
  - injection H as Hc _. simpl. rewrite Hc, Ascii.eqb_refl. reflexivity.
  - injection H as _ H. simpl. rewrite (IH pre H). apply orb_true_r.
Qed.

Lemma includes_needs_letter (l : ascii) (rest s : string) :
  hasLetter l s = false -> includes (String l rest) (toLowerCase s) = false.
Proof.
  intros H. apply includes_false_iff. intros (pre & post & E).
  simpl in E. rewrite (hasLetter_occurs l s pre (rest ++ post) E) in H.
  discriminate.
Qed.

End Reading.

(** X5. With a key configured [getPrediction] calls the chat endpoint
    exactly once, with the question as the user message, and it returns a
    value only when the endpoint answered with a text that reads as yes or
    no. An answer that is not a string is reported on the error console and
    raises "Failed to get a valid response from OpenAI API."; a rejected
    call raises its own error with nothing printed. *)
Theorem X5_prediction_needs_a_readable_answer :
  forall (env : Env) (w : World) (question : option string),
    isSet (OPENAI_API_KEY env) = true ->
    filter isChatCall (trace (getPrediction env w question)) = [ChatCompletion question]
    /\ (forall v, outcome (getPrediction env w question) = Ok v ->
                  exists content,
                    chat w question = Ok (Some content)
                    /\ (Substring "yes" (toLowerCase content)
                        \/ Substring "no" (toLowerCase content)))
    /\ (chat w question = Ok None ->
        getPrediction env w question
        = ([ChatCompletion question;
            ConsoleError "Invalid response structure from OpenAI API:"],
           Throw "Failed to get a valid response from OpenAI API."))
    /\ (forall e, chat w question = Throw e ->
                  getPrediction env w question = ([ChatCompletion question], Throw e)).
Proof.
  intros env w question Hkey.
  destruct (chat w question) as [[content|]|e] eqn:Hchat.
  - rewrite (getPrediction_with_answer env w question content Hkey Hchat).
    unfold outcome, trace; simpl fst; simpl snd.
    split; [reflexivity|]. split; [|split; [discriminate | intros e; discriminate]].
    intros v Hv. exists content. split; [reflexivity|].
    rewrite parseAnswer_spec in Hv.
    destruct (includes "yes" (toLowerCase content)) eqn:Hyes.
    + left. now apply includes_Substring.
    + destruct (includes "no" (toLowerCase content)) eqn:Hno; [|discriminate].
      right. now apply includes_Substring.
  - assert (E : getPrediction env w question
                = ([ChatCompletion question;
                    ConsoleError "Invalid response structure from OpenAI API:"],
                   Throw "Failed to get a valid response from OpenAI API.")).
    { unfold getPrediction, perform. rewrite Hkey. simpl. rewrite Hchat. reflexivity. }
    rewrite E. unfold outcome, trace; simpl fst; simpl snd.
    split; [reflexivity|]. split; [discriminate|].
    split; [reflexivity | intros e; discriminate].
  - assert (E : getPrediction env w question = ([ChatCompletion question], Throw e)).
    { unfold getPrediction, perform. rewrite Hkey. simpl. rewrite Hchat. reflexivity. }
    rewrite E. unfold outcome, trace; simpl fst; simpl snd.
    split; [reflexivity|]. split; [discriminate|].
    split; [discriminate | intros e' [= <-]; reflexivity].
Qed.

Lemma X5_prediction_needs_a_readable_answer_witness :
  filter isChatCall (trace (getPrediction chatKeyOnly (answerWorld "No.") (Some "Rain?")))
  = [ChatCompletion (Some "Rain?")]
  /\ exists content,
       chat (answerWorld "No.") (Some "Rain?") = Ok (Some content)
       /\ (Substring "yes" (toLowerCase content)
           \/ Substring "no" (toLowerCase content)).
Proof.
  destruct (X5_prediction_needs_a_readable_answer
              chatKeyOnly (answerWorld "No.") (Some "Rain?") eq_refl)
    as (Hcall & Hread & _).
  split; [exact Hcall|].
  apply (Hread 0). reflexivity.
Defined.

(** X6. The reading of the answer (lines 104-118) ignores the case of the
    letters and any white space around the text: lower-casing the answer,
    trimming it, or padding it with blanks on either side leaves the result
    unchanged. *)
Theorem X6_reading_ignores_case_and_padding :
  forall (content before after : string),
    blank before = true -> blank after = true ->
    parseAnswer (toLowerCase content) = parseAnswer content
    /\ parseAnswer (trim content) = parseAnswer content
    /\ parseAnswer (before ++ content ++ after) = parseAnswer content.
Proof.
  intros content before after Hb Ha.
  rewrite !parseAnswer_spec. repeat split.
  - now rewrite toLowerCase_idem.
  - rewrite <- !(includes_answer _ (trim content)) by reflexivity.
    rewrite !includes_answer by reflexivity.
    rewrite <- !(includes_answer _ content) by reflexivity.
    reflexivity.
  - rewrite !toLowerCase_app.
    rewrite !includes_padded
      by (first [reflexivity | rewrite blank_toLowerCase; assumption]).
    reflexivity.
Qed.

Lemma X6_reading_ignores_case_and_padding_witness :
  parseAnswer (toLowerCase "NO way") = parseAnswer "NO way"
  /\ parseAnswer (trim "NO way") = parseAnswer "NO way"
  /\ parseAnswer ("  " ++ "NO way" ++ " ") = parseAnswer "NO way".
Proof.
  apply (X6_reading_ignores_case_and_padding "NO way" "  " " "); reflexivity.
Defined.

(** X7. A "yes" cannot be taken back and a failure cannot be hidden: if an
    answer reads as yes, so does every text that contains it; and if a text
    cannot be read, neither can any part of it. *)
Theorem X7_yes_survives_any_context :
  forall (content before after : string),
    (parseAnswer content = Ok (10 ^ 18) ->
     parseAnswer (before ++ content ++ after) = Ok (10 ^ 18))
    /\ (parseAnswer (before ++ content ++ after) = Throw COULD_NOT_PARSE ->
        parseAnswer content = Throw COULD_NOT_PARSE).
Proof.
  intros content before after.
  rewrite !parseAnswer_spec, !toLowerCase_app.
  destruct (includes "yes" (toLowerCase content)) eqn:Hyes.
  - rewrite (includes_embedded _ _ _ _ Hyes). split; [reflexivity | discriminate].
  - split; [destruct (includes "no" (toLowerCase content)); discriminate|].
    destruct (includes "no" (toLowerCase content)) eqn:Hno; [|reflexivity].
    rewrite (includes_embedded _ _ _ _ Hno).
    intros H. destruct (includes "yes" (_ ++ _)); discriminate H.
Qed.

Lemma X7_yes_survives_any_context_witness :
  parseAnswer ("No. " ++ "Yes" ++ ", maybe") = Ok (10 ^ 18).
Proof.
  apply (proj1 (X7_yes_survives_any_context "Yes" "No. " ", maybe")).
  reflexivity.
Defined.

(** X8. An answer in which neither the letter y nor the letter n occurs,
    in either case, cannot be read: a bare number, which the system prompt
    allows the model to give, always raises "Couldn't parse a prediction",
    and so does an empty answer. *)
Theorem X8_answer_without_y_or_n_is_rejected :
  forall (content : string),
    hasLetter "y" content = false ->
    hasLetter "n" content = false ->
    parseAnswer content = Throw "Couldn't parse a prediction".
Proof.
  intros content Hy Hn.
  rewrite parseAnswer_spec.
  now rewrite (includes_needs_letter "y" "es" content Hy),
              (includes_needs_letter "n" "o" content Hn).
Qed.

Lemma X8_answer_without_y_or_n_is_rejected_witness :
  parseAnswer "42.5%" = Throw "Couldn't parse a prediction"
  /\ parseAnswer "" = Throw "Couldn't parse a prediction".
Proof.
  split.
  - apply (X8_answer_without_y_or_n_is_rejected "42.5%"); reflexivity.
  - apply (X8_answer_without_y_or_n_is_rejected ""); reflexivity.
Defined.

(** ** getQuote *)

Lemma trimStart_blank (s : string) : blank s = true -> trimStart s = EmptyString.
Proof.
  induction s as [|c s IH]; simpl; [reflexivity|].
  intros H. apply andb_true_iff in H as [Hc Hs]. rewrite Hc. exact (IH Hs).
Qed.

Lemma append_nil_r (s : string) : s ++ "" = s.
Proof. induction s as [|c s IH]; simpl; [reflexivity | now rewrite IH]. Qed.

Lemma BigInt_blank (s : string) : blank s = true -> BigInt s = Some 0.
Proof.
  intros H. unfold BigInt, trim. rewrite (trimStart_blank s H). reflexivity.
Qed.

(** X9. [getQuote] sends exactly one GET, to the URL built from the chain
    id, the market address, the market id, the wager and the expected price,
    and it returns a position size only when that request was answered with
    a success status, the body parsed, and [maxSize] read as an integer. *)
Theorem X9_quote_needs_a_successful_answer :
  forall (w : World) (marketAddress : Address) (marketId prediction : Z),
    filter isHttpGet (trace (getQuote w marketAddress marketId prediction))
    = [HttpGet (quoterUrl marketAddress marketId prediction)]
    /\ forall z,
         outcome (getQuote w marketAddress marketId prediction) = Ok z ->
         exists response quote,
           httpGet w (quoterUrl marketAddress marketId prediction) = Ok response
           /\ ok response = true
           /\ json response = Ok quote
           /\ BigInt (maxSize quote) = Some z.
Proof.
  intros w marketAddress marketId prediction.
  unfold getQuote, perform.
  destruct (httpGet w (quoterUrl marketAddress marketId prediction))
    as [response|e] eqn:Hget; simpl.
  - destruct (ok response) eqn:Hok; simpl.
    + destruct (json response) as [quote|e] eqn:Hjson; simpl.
      * destruct (BigInt (maxSize quote)) as [z'|] eqn:Hbig; simpl.
        -- split; [reflexivity|]. intros z [= <-].
           exists response, quote. repeat split; assumption.
        -- split; [reflexivity | discriminate].
      * split; [reflexivity | discriminate].
    + split; [reflexivity | discriminate].
  - split; [reflexivity | discriminate].
Qed.

(** X10. A quoter answer without a success status makes [getQuote] write
    one line to the error console and throw an error with the same text,
    which holds the status code in decimal and the body of the answer; the
    body is not parsed, whatever JSON it holds. *)
Theorem X10_quoter_failure_is_reported_with_status_and_body :
  forall (w : World) (marketAddress : Address) (marketId prediction : Z)
         (response : HttpResponse),
    httpGet w (quoterUrl marketAddress marketId prediction) = Ok response ->
    ok response = false ->
    getQuote w marketAddress marketId prediction
    = ([HttpGet (quoterUrl marketAddress marketId prediction);
        ConsoleError (quoterFailure response)],
       Throw (quoterFailure response))
    /\ quoterFailure response
       = "Quoter API request failed with status " ++ toString (status response)
         ++ ": " ++ text response
    /\ Substring (toString (status response)) (quoterFailure response)
    /\ Substring (text response) (quoterFailure response)
    /\ BigInt (toString (status response)) = Some (status response).
Proof.
  intros w marketAddress marketId prediction response Hget Hok.
  split; [|split; [reflexivity | split; [|split]]].
  - unfold getQuote, perform. simpl. rewrite Hget, Hok. reflexivity.
  - exists "Quoter API request failed with status ", (": " ++ text response).
    reflexivity.
  - exists ("Quoter API request failed with status " ++ toString (status response)
            ++ ": "), "".
    unfold quoterFailure.
    rewrite append_nil_r, !append_assoc. reflexivity.
  - apply BigInt_toString.
Qed.

Lemma X10_quoter_failure_is_reported_with_status_and_body_witness :
  getQuote quoterDownWorld "0xGroup" 3 (10 ^ 18)
  = ([HttpGet (quoterUrl "0xGroup" 3 (10 ^ 18));
      ConsoleError "Quoter API request failed with status 500: Internal Server Error"],
     Throw "Quoter API request failed with status 500: Internal Server Error").
Proof.
  apply (X10_quoter_failure_is_reported_with_status_and_body
           quoterDownWorld "0xGroup" 3 (10 ^ 18)
           {| ok := false; status := 500; text := "Internal Server Error";
              json := Ok (mkQuote "1") |});
    reflexivity.
Defined.

(** X11. An empty or blank [maxSize] is not an error: [BigInt] reads it as
    0, so [getQuote] returns a position size of 0 for it. *)
Theorem X11_blank_maxSize_is_zero :
  forall (w : World) (marketAddress : Address) (marketId prediction : Z)
         (response : HttpResponse) (quote : Quote),
    httpGet w (quoterUrl marketAddress marketId prediction) = Ok response ->
    ok response = true ->
    json response = Ok quote ->
    blank (maxSize quote) = true ->
    outcome (getQuote w marketAddress marketId prediction) = Ok 0.
Proof.
  intros w marketAddress marketId prediction response quote Hget Hok Hjson Hblank.
  rewrite (getQuote_success _ _ _ _ _ _ Hget Hok Hjson).
  unfold outcome; simpl snd. now rewrite (BigInt_blank _ Hblank).
Qed.

Lemma X11_blank_maxSize_is_zero_witness :
  outcome (getQuote (quoteWorld " ") "0xGroup" 1 0) = Ok 0.
Proof.
  apply (X11_blank_maxSize_is_zero (quoteWorld " ") "0xGroup" 1 0
           {| ok := true; status := 200; text := ""; json := Ok (mkQuote " ") |}
           (mkQuote " "));
    reflexivity.
Defined.

(** ** trade *)

Section Trade.

Variables (env : Env) (w : World) (marketAddress : Address)
          (marketId positionSize : Z).

Let deadline : Z := nowAtTrade w / 1000 + 3600.
Let approve : ContractCall := approveCall marketAddress.
Let create : ContractCall :=
  createTraderPositionCall marketAddress marketId positionSize deadline.

(** The six ways [trade] can go once a key is set. *)
Lemma trade_paths (key : string) :
  ETHEREUM_PRIVATE_KEY env = Some key -> isEmpty key = false ->
  trade env w marketAddress marketId positionSize
  = match privateKeyToAccount w key with
    | Throw e => ([], Throw e)
    | Ok account =>
        match writeContract w account approve with
        | Throw e =>
            ([ConsoleLog "Approving token spend..."; WriteContract account approve],
             Throw e)
        | Ok approveHash =>
            match waitForTransactionReceipt w approveHash with
            | Throw e =>
                ([ConsoleLog "Approving token spend..."; WriteContract account approve;
                  WaitForTransactionReceipt approveHash],
                 Throw e)
            | Ok _ =>
                match writeContract w account create with
                | Throw e =>
                    ([ConsoleLog "Approving token spend...";
                      WriteContract account approve;
                      WaitForTransactionReceipt approveHash;
                      ConsoleLog "Creating trader position...";
                      WriteContract account create],
                     Throw e)
                | Ok tradeHash =>
                    match waitForTransactionReceipt w tradeHash with
                    | Throw e =>
                        ([ConsoleLog "Approving token spend...";
                          WriteContract account approve;
                          WaitForTransactionReceipt approveHash;
                          ConsoleLog "Creating trader position...";
                          WriteContract account create;
                          WaitForTransactionReceipt tradeHash],
                         Throw e)
                    | Ok _ =>
                        ([ConsoleLog "Approving token spend...";
                          WriteContract account approve;
                          WaitForTransactionReceipt approveHash;
                          ConsoleLog "Creating trader position...";
                          WriteContract account create;
                          WaitForTransactionReceipt tradeHash;
                          ConsoleLog "";
                          ConsoleLog "Success!";
                          ConsoleLog (base_explorer_url ++ "/tx/" ++ tradeHash)],
                         Ok tt)
                    end
                end
            end
        end
    end.
Proof.
  intros Hkey Hne. unfold trade. rewrite Hkey.
  destruct key as [|c k]; [discriminate|].
  subst approve create deadline. unfold perform.
  destruct (privateKeyToAccount w (String c k)) as [account|e]; [|reflexivity].
  simpl.
  destruct (writeContract w account (approveCall marketAddress))
    as [approveHash|e]; [|reflexivity].
  simpl.
  destruct (waitForTransactionReceipt w approveHash) as [[]|e]; [|reflexivity].
  simpl.
  destruct (writeContract w account _) as [tradeHash|e]; [|reflexivity].
  simpl.
  destruct (waitForTransactionReceipt w tradeHash) as [[]|e]; reflexivity.
Qed.

Lemma trade_key_cases :
  (exists key, ETHEREUM_PRIVATE_KEY env = Some key /\ isEmpty key = false)
  \/ trade env w marketAddress marketId positionSize = ([], Throw KEY_NOT_SET).
Proof.
  destruct (isSet (ETHEREUM_PRIVATE_KEY env)) eqn:E.
  - left. unfold isSet in E.
    destruct (ETHEREUM_PRIVATE_KEY env) as [[|c k]|]; try discriminate.
    exists (String c k). split; reflexivity.
  - right. now apply trade_without_key.
Qed.

Lemma deadline_bounds :
  nowAtTrade w + 3599000 < deadline * 1000 <= nowAtTrade w + 3600000.
Proof.
  subst deadline.
  pose proof (Z.mul_div_le (nowAtTrade w) 1000).
  pose proof (Z.mul_succ_div_gt (nowAtTrade w) 1000).
  lia.
Qed.

End Trade.

(** Splits a membership in an explicit list of events into its cases. *)
Ltac in_cases H :=
  simpl in H;
  repeat match type of H with
         | _ \/ _ => destruct H as [H|H]
         | False => destruct H
         end.

(** X12. [trade] submits the position only on a confirmed approval: if a
    [createTraderPosition] transaction is among the events of [trade], then
    the approval of the wager was written and its receipt arrived; the
    transaction is sent from the same account to the market address, with
    the market id, the position size, the wager of 10^18 and a deadline in
    seconds that lies between 3599 and 3600 seconds after the clock reading
    of line 175. *)
Theorem X12_position_only_after_confirmed_approval :
  forall (env : Env) (w : World) (marketAddress : Address)
         (marketId positionSize : Z) (account : Address) (call : ContractCall),
    In (WriteContract account call)
       (trace (trade env w marketAddress marketId positionSize)) ->
    functionName call = "createTraderPosition" ->
    exists approveHash deadline,
      writeContract w account (approveCall marketAddress) = Ok approveHash
      /\ waitForTransactionReceipt w approveHash = Ok tt
      /\ call_address call = marketAddress
      /\ args call = [ArgInt marketId; ArgInt positionSize; ArgInt (10 ^ 18);
                      ArgInt deadline]
      /\ nowAtTrade w + 3599000 < deadline * 1000 <= nowAtTrade w + 3600000.
Proof.
  intros env w marketAddress marketId positionSize account call Hin Hname.
  destruct (trade_key_cases env w marketAddress marketId positionSize)
    as [(key & Hkey & Hne)|Hno]; [|rewrite Hno in Hin; destruct Hin].
  pose proof (trade_paths env w marketAddress marketId positionSize key Hkey Hne) as Hp.
  cbv zeta in Hp. rewrite Hp in Hin. clear Hp.
  pose proof (deadline_bounds w) as Hd. cbv zeta in Hd.
  destruct (privateKeyToAccount w key) as [a|e]; [|destruct Hin].
  destruct (writeContract w a (approveCall marketAddress)) as [h1|e] eqn:Hw1;
    [destruct (waitForTransactionReceipt w h1) as [[]|e] eqn:Hr1;
     [destruct (writeContract w a (createTraderPositionCall _ _ _ _)) as [h2|e];
      [destruct (waitForTransactionReceipt w h2) as [[]|e]|]|]|];
    in_cases Hin; try discriminate Hin;
    injection Hin as <- <-;
    first [ discriminate Hname
          | exists h1, (nowAtTrade w / 1000 + 3600);
            repeat split; try assumption; try reflexivity; apply Hd ].
Qed.

Lemma X12_position_only_after_confirmed_approval_witness :
  exists approveHash deadline,
    writeContract (marketsWorld mixedMarkets) "0xAccount" (approveCall "0xGroup")
    = Ok approveHash
    /\ waitForTransactionReceipt (marketsWorld mixedMarkets) approveHash = Ok tt
    /\ call_address (createTraderPositionCall "0xGroup" 3 500000000000000000 1762103605)
       = "0xGroup"
    /\ args (createTraderPositionCall "0xGroup" 3 500000000000000000 1762103605)
       = [ArgInt 3; ArgInt 500000000000000000; ArgInt (10 ^ 18); ArgInt deadline]
    /\ nowAtTrade (marketsWorld mixedMarkets) + 3599000 < deadline * 1000
       <= nowAtTrade (marketsWorld mixedMarkets) + 3600000.
Proof.
  apply (X12_position_only_after_confirmed_approval
           bothKeys (marketsWorld mixedMarkets) "0xGroup" 3 500000000000000000
           "0xAccount"
           (createTraderPositionCall "0xGroup" 3 500000000000000000 1762103605)).
  - vm_compute. repeat (first [left; reflexivity | right]).
  - reflexivity.
Defined.

(** X13. [trade] never writes more than two transactions and never a
    compensating one: its contract writes are nothing, or the approval
    alone, or the approval followed by the position. The approval is always
    the first write: the collateral token is asked to let the market address
    spend exactly the wager of 10^18. *)
Theorem X13_at_most_approval_then_position :
  forall (env : Env) (w : World) (marketAddress : Address)
         (marketId positionSize : Z),
    filter isWriteContract (trace (trade env w marketAddress marketId positionSize)) = []
    \/ exists account,
         let approval :=
           WriteContract account
             {| call_address := "0x5875eEE11Cf8398102FdAd704C9E96607675467a";
                functionName := "approve";
                args := [ArgAddress marketAddress; ArgInt (10 ^ 18)] |} in
         filter isWriteContract (trace (trade env w marketAddress marketId positionSize))
         = [approval]
         \/ filter isWriteContract
              (trace (trade env w marketAddress marketId positionSize))
            = [approval;
               WriteContract account
                 (createTraderPositionCall marketAddress marketId positionSize
                    (nowAtTrade w / 1000 + 3600))].
Proof.
  intros env w marketAddress marketId positionSize.
  destruct (trade_key_cases env w marketAddress marketId positionSize)
    as [(key & Hkey & Hne)|Hno]; [|rewrite Hno; now left].
  pose proof (trade_paths env w marketAddress marketId positionSize key Hkey Hne) as Hp.
  cbv zeta in Hp. rewrite Hp. clear Hp.
  destruct (privateKeyToAccount w key) as [a|e]; [|now left].
  right. exists a. cbv zeta.
  destruct (writeContract w a (approveCall marketAddress)) as [h1|e];
    [|left; reflexivity].
  destruct (waitForTransactionReceipt w h1) as [[]|e]; [|left; reflexivity].
  destruct (writeContract w a (createTraderPositionCall _ _ _ _)) as [h2|e];
    [|right; reflexivity].
  destruct (waitForTransactionReceipt w h2) as [[]|e]; right; reflexivity.
Qed.

(** X14. [trade] ends normally only when everything went through: the key
    produced an account, both transactions were written and both receipts
    arrived; the last line it prints is then the explorer link of the
    position transaction. Any failure on the way is thrown on unchanged. *)
Theorem X14_trade_succeeds_only_with_both_receipts :
  forall (env : Env) (w : World) (marketAddress : Address)
         (marketId positionSize : Z),
    (outcome (trade env w marketAddress marketId positionSize) = Ok tt ->
     exists key account approveHash tradeHash,
       ETHEREUM_PRIVATE_KEY env = Some key
       /\ privateKeyToAccount w key = Ok account
       /\ writeContract w account (approveCall marketAddress) = Ok approveHash
       /\ waitForTransactionReceipt w approveHash = Ok tt
       /\ writeContract w account
            (createTraderPositionCall marketAddress marketId positionSize
               (nowAtTrade w / 1000 + 3600)) = Ok tradeHash
       /\ waitForTransactionReceipt w tradeHash = Ok tt
       /\ EndsWith (ConsoleLog ("https://basescan.org/tx/" ++ tradeHash))
                   (trace (trade env w marketAddress marketId positionSize)))
    /\ (forall e, outcome (trade env w marketAddress marketId positionSize) = Throw e ->
                  e = KEY_NOT_SET
                  \/ (exists key, privateKeyToAccount w key = Throw e)
                  \/ (exists account call, writeContract w account call = Throw e)
                  \/ (exists hash, waitForTransactionReceipt w hash = Throw e)).
Proof.
  intros env w marketAddress marketId positionSize.
  destruct (trade_key_cases env w marketAddress marketId positionSize)
    as [(key & Hkey & Hne)|Hno].
  - pose proof (trade_paths env w marketAddress marketId positionSize key Hkey Hne) as Hp.
    cbv zeta in Hp. rewrite Hp. clear Hp. unfold outcome, trace.
    destruct (privateKeyToAccount w key) as [a|e0] eqn:Ha.
    + destruct (writeContract w a (approveCall marketAddress)) as [h1|e1] eqn:Hw1.
      * destruct (waitForTransactionReceipt w h1) as [[]|e2] eqn:Hr1.
        -- destruct (writeContract w a (createTraderPositionCall _ _ _ _))
             as [h2|e3] eqn:Hw2.
           ++ destruct (waitForTransactionReceipt w h2) as [[]|e4] eqn:Hr2; simpl.
              ** split; [|discriminate]. intros _.
                 exists key, a, h1, h2. repeat split; try assumption.
                 eexists. simpl.
                 change (?x :: ?y :: ?z :: ?u :: ?v :: ?t :: ?r :: ?s :: [?l])
                   with ([x; y; z; u; v; t; r; s] ++ [l])%list.
                 reflexivity.
              ** split; [discriminate|]. intros e [= <-].
                 right. right. right. now exists h2.
           ++ simpl. split; [discriminate|]. intros e [= <-].
              right. right. left. eauto.
        -- simpl. split; [discriminate|]. intros e [= <-].
           right. right. right. now exists h1.
      * simpl. split; [discriminate|]. intros e [= <-].
        right. right. left. eauto.
    + simpl. split; [discriminate|]. intros e [= <-]. right. left. now exists key.
  - rewrite Hno. unfold outcome; simpl. split; [discriminate|].
    intros e [= <-]. now left.
Qed.

Lemma X14_trade_succeeds_only_with_both_receipts_witness :
  exists key account approveHash tradeHash,
    ETHEREUM_PRIVATE_KEY bothKeys = Some key
    /\ privateKeyToAccount (marketsWorld mixedMarkets) key = Ok account
    /\ writeContract (marketsWorld mixedMarkets) account (approveCall "0xGroup")
       = Ok approveHash
    /\ waitForTransactionReceipt (marketsWorld mixedMarkets) approveHash = Ok tt
    /\ writeContract (marketsWorld mixedMarkets) account
         (createTraderPositionCall "0xGroup" 3 500000000000000000
            (nowAtTrade (marketsWorld mixedMarkets) / 1000 + 3600)) = Ok tradeHash
    /\ waitForTransactionReceipt (marketsWorld mixedMarkets) tradeHash = Ok tt
    /\ EndsWith (ConsoleLog ("https://basescan.org/tx/" ++ tradeHash))
         (trace (trade bothKeys (marketsWorld mixedMarkets) "0xGroup" 3
                   500000000000000000)).
Proof.
  apply (proj1 (X14_trade_succeeds_only_with_both_receipts
                  bothKeys (marketsWorld mixedMarkets) "0xGroup" 3 500000000000000000)).
  reflexivity.
Defined.

(** ** The top-level block *)

Section Pipeline.

Lemma In_bind_inv {A B} (m : IO A) (f : A -> IO B) (e : Event) :
  In e (trace (bind m f)) ->
  In e (trace m) \/ exists a, outcome m = Ok a /\ In e (trace (f a)).
Proof.
  rewrite trace_bind. intros H. apply in_app_or in H as [H|H]; [now left|].
  destruct (outcome m) as [a|]; [|destruct H].
  right. exists a. split; [reflexivity | exact H].
Qed.

Lemma ends_bind_ok {A B} (m : IO A) (f : A -> IO B) (x : Event) :
  (forall a b, outcome (f a) = Ok b -> EndsWith x (trace (f a))) ->
  forall b, outcome (bind m f) = Ok b -> EndsWith x (trace (bind m f)).
Proof.
  intros Hf b. destruct m as [t [a|e]]; [|discriminate].
  specialize (Hf a b). unfold outcome, trace in *. simpl.
  destruct (f a) as [t' r']. simpl in *. intros Hr.
  destruct (Hf Hr) as [front ->].
  exists (t ++ front)%list. now rewrite app_assoc.
Qed.

Lemma fetchNextClosingMarket_trace (w : World) :
  trace (fetchNextClosingMarket w) = [GraphQLRequest GRAPHQL_URL (queryVariables w)].
Proof.
  unfold fetchNextClosingMarket. rewrite trace_bind.
  unfold perform, outcome, trace; simpl.
  destruct (graphql w GRAPHQL_URL (queryVariables w)) as [resp|e]; [|reflexivity].
  destruct (nextMarket resp); reflexivity.
Qed.

Lemma getPrediction_events (env : Env) (w : World) (question : option string)
  (e : Event) :
  In e (trace (getPrediction env w question)) ->
  isConsole e = true
  \/ (e = ChatCompletion question /\ isSet (OPENAI_API_KEY env) = true).
Proof.
  unfold getPrediction. destruct (isSet (OPENAI_API_KEY env)); simpl negb; cbv iota.
  - intros H. apply In_bind_inv in H as [H|(content & _ & H)].
    + in_cases H. subst e. right. split; reflexivity.
    + left. destruct content as [content|];
        apply In_bind_inv in H as [H|(? & _ & H)]; in_cases H; subst e; reflexivity.
  - intros H. apply In_bind_inv in H as [H|(? & _ & H)];
      in_cases H; subst e; left; reflexivity.
Qed.

Lemma getQuote_events (w : World) (marketAddress : Address)
  (marketId prediction : Z) (e : Event) :
  In e (trace (getQuote w marketAddress marketId prediction)) ->
  isConsole e = true \/ e = HttpGet (quoterUrl marketAddress marketId prediction).
Proof.
  unfold getQuote. intros H.
  apply In_bind_inv in H as [H|(response & _ & H)].
  - in_cases H. subst e. right. reflexivity.
  - left. destruct (negb (ok response)).
    + apply In_bind_inv in H as [H|(? & _ & H)]; in_cases H; subst e; reflexivity.
    + apply In_bind_inv in H as [H|(quote & _ & H)]; [in_cases H|].
      destruct (BigInt (maxSize quote)); in_cases H.
Qed.

Lemma trade_events (env : Env) (w : World) (marketAddress : Address)
  (marketId positionSize : Z) (e : Event) :
  In e (trace (trade env w marketAddress marketId positionSize)) ->
  isConsole e = true \/ isOnChain e = true.
Proof.
  destruct (trade_key_cases env w marketAddress marketId positionSize)
    as [(key & Hkey & Hne)|Hno]; [|rewrite Hno; intros []].
  pose proof (trade_paths env w marketAddress marketId positionSize key Hkey Hne) as Hp.
  cbv zeta in Hp. rewrite Hp. clear Hp.
  destruct (privateKeyToAccount w key) as [a|e0]; [|intros []].
  destruct (writeContract w a (approveCall marketAddress)) as [h1|e1];
    [destruct (waitForTransactionReceipt w h1) as [[]|e2];
     [destruct (writeContract w a (createTraderPositionCall _ _ _ _)) as [h2|e3];
      [destruct (waitForTransactionReceipt w h2) as [[]|e4]|]|]|];
    intros H; in_cases H; subst e; first [left; reflexivity | right; reflexivity].
Qed.

(** Where an event of a run comes from: the console, or one of the four
    steps, each entered only with the results of the steps before it. *)
Lemma run_events (env : Env) (w : World) (e : Event) :
  In e (trace (run env w)) ->
  isConsole e = true
  \/ e = GraphQLRequest GRAPHQL_URL (queryVariables w)
  \/ (exists market,
         outcome (fetchNextClosingMarket w) = Ok market
         /\ In e (trace (getPrediction env w (question market))))
  \/ (exists market prediction marketGroupAddress,
         outcome (fetchNextClosingMarket w) = Ok market
         /\ outcome (getPrediction env w (question market)) = Ok prediction
         /\ outcome (groupAddressOf market) = Ok marketGroupAddress
         /\ In e (trace (getQuote w marketGroupAddress (marketId market) prediction)))
  \/ (exists market prediction marketGroupAddress positionSize,
         outcome (fetchNextClosingMarket w) = Ok market
         /\ outcome (getPrediction env w (question market)) = Ok prediction
         /\ outcome (groupAddressOf market) = Ok marketGroupAddress
         /\ outcome (getQuote w marketGroupAddress (marketId market) prediction)
            = Ok positionSize
         /\ isSet (ETHEREUM_PRIVATE_KEY env) = true
         /\ In e (trace (trade env w marketGroupAddress (marketId market) positionSize))).
Proof.
  unfold run. intros H.
  apply In_bind_inv in H as [H|(market & Hm & H)].
  { rewrite fetchNextClosingMarket_trace in H. in_cases H. subst e. right. now left. }
  do 7 (apply In_bind_inv in H as [H|(? & _ & H)];
        [in_cases H; subst e; left; reflexivity|]).
  apply In_bind_inv in H as [H|(prediction & Hp & H)].
  { right. right. left. exists market. split; assumption. }
  do 4 (apply In_bind_inv in H as [H|(? & _ & H)];
        [in_cases H; subst e; left; reflexivity|]).
  apply In_bind_inv in H as [H|(marketGroupAddress & Ha & H)].
  { unfold groupAddressOf in H. destruct (marketGroup market); in_cases H. }
  apply In_bind_inv in H as [H|(positionSize & Hq & H)].
  { right. right. right. left. exists market, prediction, marketGroupAddress.
    repeat split; assumption. }
  apply In_bind_inv in H as [H|(? & _ & H)];
    [|in_cases H; subst e; left; reflexivity].
  unfold settle in H. destruct (isSet (ETHEREUM_PRIVATE_KEY env)) eqn:Hkey.
  - do 2 (apply In_bind_inv in H as [H|(? & _ & H)];
          [in_cases H; subst e; left; reflexivity|]).
    apply In_bind_inv in H as [H|(? & _ & H)].
    + right. right. right. right.
      exists market, prediction, marketGroupAddress, positionSize.
      repeat split; assumption.
    + apply In_bind_inv in H as [H|(? & _ & H)];
        in_cases H; subst e; left; reflexivity.
  - do 2 (apply In_bind_inv in H as [H|(? & _ & H)];
          [in_cases H; subst e; left; reflexivity|]).
    in_cases H; subst e; left; reflexivity.
Qed.

Lemma main_events (env : Env) (w : World) (e : Event) :
  In e (main env w) -> isConsole e = true \/ In e (trace (run env w)).
Proof.
  intros H. apply main_trace in H as [H|[message ->]]; [now right | now left].
Qed.

Lemma getPrediction_values (env : Env) (w : World) (question : option string) (v : Z) :
  outcome (getPrediction env w question) = Ok v -> v = 0 \/ v = 10 ^ 18.
Proof.
  destruct (isSet (OPENAI_API_KEY env)) eqn:Hkey.
  - destruct (chat w question) as [[content|]|e] eqn:Hchat.
    + rewrite (getPrediction_with_answer env w question content Hkey Hchat).
      apply parseAnswer_values.
    + unfold getPrediction, perform. rewrite Hkey, Hchat. discriminate.
    + unfold getPrediction, perform. rewrite Hkey, Hchat. discriminate.
  - rewrite (getPrediction_without_key env w question Hkey).
    intros [= <-]. right. reflexivity.
Qed.

End Pipeline.

(** X15. In a run of the program the model is asked only about the market
    that [fetchNextClosingMarket] returned: a chat call among the events
    means that a key is configured, that the market query succeeded, and
    that the user message is that market's question. *)
Theorem X15_model_is_asked_the_fetched_question :
  forall (env : Env) (w : World) (userMessage : option string),
    In (ChatCompletion userMessage) (main env w) ->
    isSet (OPENAI_API_KEY env) = true
    /\ exists market,
         outcome (fetchNextClosingMarket w) = Ok market
         /\ userMessage = question market.
Proof.
  intros env w userMessage H.
  apply main_events in H as [H|H]; [discriminate H|].
  apply run_events in H
    as [H|[H|[(market & Hm & H)|[(market & p & a & Hm & Hp & Ha & H)
                                |(market & p & a & s & Hm & Hp & Ha & Hq & Hk & H)]]]].
  - discriminate H.
  - discriminate H.
  - apply getPrediction_events in H as [H|[H Hkey]]; [discriminate H|].
    injection H as ->. split; [exact Hkey|]. exists market. split; [exact Hm | reflexivity].
  - apply getQuote_events in H as [H|H]; discriminate H.
  - apply trade_events in H as [H|H]; discriminate H.
Qed.

Lemma X15_model_is_asked_the_fetched_question_witness :
  isSet (OPENAI_API_KEY bothKeys) = true
  /\ exists market,
       outcome (fetchNextClosingMarket (marketsWorld mixedMarkets)) = Ok market
       /\ Some "Will it happen? #3" = question market.
Proof.
  apply (X15_model_is_asked_the_fetched_question
           bothKeys (marketsWorld mixedMarkets) (Some "Will it happen? #3")).
  vm_compute. repeat (first [left; reflexivity | right]).
Defined.

(** X16. In a run of the program the quoter is asked only after a market
    and a prediction were obtained, and about exactly those: the URL of a
    GET among the events is the quoter URL for the address of the group that
    owns the fetched market, that market's id, and the prediction returned
    by [getPrediction], which is 0 or 10^18; so the price at the end of the
    URL is "0.0000009" or "1". A group without an address is written into
    the URL as "null". *)
Theorem X16_quoter_is_asked_about_the_fetched_market :
  forall (env : Env) (w : World) (url : string),
    In (HttpGet url) (main env w) ->
    exists market prediction marketGroupAddress,
      outcome (fetchNextClosingMarket w) = Ok market
      /\ outcome (getPrediction env w (question market)) = Ok prediction
      /\ (prediction = 0 \/ prediction = 10 ^ 18)
      /\ (exists group,
             marketGroup market = Some group
             /\ marketGroupAddress = showNullable (ref_address group))
      /\ url = quoterUrl marketGroupAddress (marketId market) prediction
      /\ (url = quoterUrlPrefix marketGroupAddress (marketId market) ++ "0.0000009"
          \/ url = quoterUrlPrefix marketGroupAddress (marketId market) ++ "1").
Proof.
  intros env w url H.
  apply main_events in H as [H|H]; [discriminate H|].
  apply run_events in H
    as [H|[H|[(market & Hm & H)|[(market & p & a & Hm & Hp & Ha & H)
                                |(market & p & a & s & Hm & Hp & Ha & Hq & Hk & H)]]]].
  - discriminate H.
  - discriminate H.
  - apply getPrediction_events in H as [H|[H _]]; discriminate H.
  - apply getQuote_events in H as [H|H]; [discriminate H|].
    injection H as ->.
    pose proof (getPrediction_values _ _ _ _ Hp) as Hv.
    exists market, p, a.
    split; [exact Hm|]. split; [exact Hp|]. split; [exact Hv|].
    split; [|split; [reflexivity|]].
    + unfold groupAddressOf in Ha.
      destruct (marketGroup market) as [group|]; [|discriminate Ha].
      injection Ha as <-. exists group. split; reflexivity.
    + rewrite quoterUrl_split.
      destruct Hv as [-> | ->]; [left; reflexivity|].
      right.
      assert (E1 : expectedPriceDecimalString (10 ^ 18) = "1")
        by (vm_compute; reflexivity).
      now rewrite E1.
  - apply trade_events in H as [H|H]; discriminate H.
Qed.

Lemma X16_quoter_is_asked_about_the_fetched_market_witness :
  exists market prediction marketGroupAddress,
    outcome (fetchNextClosingMarket (marketsWorld mixedMarkets)) = Ok market
    /\ outcome (getPrediction noKeys (marketsWorld mixedMarkets) (question market))
       = Ok prediction
    /\ (prediction = 0 \/ prediction = 10 ^ 18)
    /\ (exists group,
           marketGroup market = Some group
           /\ marketGroupAddress = showNullable (ref_address group))
    /\ quoterUrlPrefix "0xGroup" 3 ++ "1"
       = quoterUrl marketGroupAddress (marketId market) prediction
    /\ (quoterUrlPrefix "0xGroup" 3 ++ "1"
        = quoterUrlPrefix marketGroupAddress (marketId market) ++ "0.0000009"
        \/ quoterUrlPrefix "0xGroup" 3 ++ "1"
           = quoterUrlPrefix marketGroupAddress (marketId market) ++ "1").
Proof.
  apply (X16_quoter_is_asked_about_the_fetched_market
           noKeys (marketsWorld mixedMarkets) (quoterUrlPrefix "0xGroup" 3 ++ "1")).
  vm_compute. repeat (first [left; reflexivity | right]).
Defined.

(** X17. In a run of the program nothing goes on chain before a quote is
    in hand: an on-chain event means that a signing key is configured, that
    market, prediction and quote were all obtained, and that the event
    belongs to the one call of [trade] for the fetched market's group
    address and id and for the position size the quoter returned. *)
Theorem X17_chain_is_touched_only_with_a_quote :
  forall (env : Env) (w : World) (e : Event),
    In e (main env w) ->
    isOnChain e = true ->
    isSet (ETHEREUM_PRIVATE_KEY env) = true
    /\ exists market prediction marketGroupAddress positionSize,
         outcome (fetchNextClosingMarket w) = Ok market
         /\ outcome (getPrediction env w (question market)) = Ok prediction
         /\ outcome (groupAddressOf market) = Ok marketGroupAddress
         /\ outcome (getQuote w marketGroupAddress (marketId market) prediction)
            = Ok positionSize
         /\ In e (trace (trade env w marketGroupAddress (marketId market) positionSize)).
Proof.
  intros env w e H Hchain.
  apply main_events in H as [H|H];
    [destruct e; discriminate|].
  apply run_events in H
    as [H|[H|[(market & Hm & H)|[(market & p & a & Hm & Hp & Ha & H)
                                |(market & p & a & s & Hm & Hp & Ha & Hq & Hk & H)]]]].
  - destruct e; discriminate.
  - subst e. discriminate Hchain.
  - apply getPrediction_events in H as [H|[-> _]];
      [destruct e; discriminate | discriminate Hchain].
  - apply getQuote_events in H as [H| ->];
      [destruct e; discriminate | discriminate Hchain].
  - split; [exact Hk|]. exists market, p, a, s. repeat split; assumption.
Qed.

Lemma X17_chain_is_touched_only_with_a_quote_witness :
  isSet (ETHEREUM_PRIVATE_KEY bothKeys) = true
  /\ exists market prediction marketGroupAddress positionSize,
       outcome (fetchNextClosingMarket (marketsWorld mixedMarkets)) = Ok market
       /\ outcome (getPrediction bothKeys (marketsWorld mixedMarkets) (question market))
          = Ok prediction
       /\ outcome (groupAddressOf market) = Ok marketGroupAddress
       /\ outcome (getQuote (marketsWorld mixedMarkets) marketGroupAddress
                     (marketId market) prediction) = Ok positionSize
       /\ In (WaitForTransactionReceipt "0xhash-approve")
             (trace (trade bothKeys (marketsWorld mixedMarkets) marketGroupAddress
                       (marketId market) positionSize)).
Proof.
  apply (X17_chain_is_touched_only_with_a_quote
           bothKeys (marketsWorld mixedMarkets)
           (WaitForTransactionReceipt "0xhash-approve")).
  - vm_compute. repeat (first [left; reflexivity | right]).
  - reflexivity.
Defined.

Lemma EndsWith_inj {A} (x y : A) (l : list A) :
  EndsWith x l -> EndsWith y l -> x = y.
Proof.
  intros [f1 ->] [f2 H]. apply app_inj_tail in H as [_ H]. exact H.
Qed.

Lemma run_ends_with_Done (env : Env) (w : World) (u : unit) :
  outcome (run env w) = Ok u -> EndsWith (ConsoleLog "Done!") (trace (run env w)).
Proof.
  revert u. unfold run.
  repeat (apply ends_bind_ok; intros ? ?).
  intros _. exists []. reflexivity.
Qed.

(** X18. Every run starts with the market query and tells how it ended:
    its last event is the line "Done!" exactly when no step failed, and
    otherwise it is the thrown error written to the error console. *)
Theorem X18_run_ends_with_Done_or_the_error :
  forall (env : Env) (w : World),
    (exists rest, main env w = GraphQLRequest GRAPHQL_URL (queryVariables w) :: rest)
    /\ (EndsWith (ConsoleLog "Done!") (main env w)
        <-> outcome (run env w) = Ok tt)
    /\ (forall e, outcome (run env w) = Throw e ->
                  EndsWith (ConsoleError e) (main env w)).
Proof.
  intros env w. split; [|split].
  - assert (H : exists rest, trace (run env w)
                             = GraphQLRequest GRAPHQL_URL (queryVariables w) :: rest).
    { unfold run. rewrite trace_bind, fetchNextClosingMarket_trace.
      eexists. reflexivity. }
    destruct H as [rest H]. unfold main, trace in *.
    destruct (run env w) as [t [u|e]]; simpl in H; subst t; eexists; reflexivity.
  - pose proof (run_ends_with_Done env w) as Hdone.
    unfold main, outcome, trace in *.
    destruct (run env w) as [t [[]|e]]; simpl in *.
    + split; [reflexivity | intros _; exact (Hdone tt eq_refl)].
    + split; [|discriminate].
      intros H.
      assert (Hlast : EndsWith (ConsoleError e) (t ++ [ConsoleError e]))
        by (exists t; reflexivity).
      pose proof (EndsWith_inj _ _ _ H Hlast) as Heq. discriminate Heq.
  - intros e He. unfold main, outcome in *.
    destruct (run env w) as [t [u|e']]; simpl in He; [discriminate|].
    injection He as ->. exists t. reflexivity.
Qed.

(** X19. The first failure ends the run. When the market query is rejected
    or finds no public market, the run consists of the request and the
    error written to the console: the model, the quoter and the chain are
    not contacted. *)
Theorem X19_no_market_no_further_call :
  forall (env : Env) (w : World) (e : string),
    outcome (fetchNextClosingMarket w) = Throw e ->
    main env w = [GraphQLRequest GRAPHQL_URL (queryVariables w); ConsoleError e]
    /\ ((exists resp, graphql w GRAPHQL_URL (queryVariables w) = Ok resp
                      /\ publicMarkets resp = [] /\ e = NO_ACTIVE_MARKETS)
        \/ graphql w GRAPHQL_URL (queryVariables w) = Throw e).
Proof.
  intros env w e He. split.
  - pose proof (fetchNextClosingMarket_trace w) as Ht.
    unfold main, run, outcome, trace in *.
    destruct (fetchNextClosingMarket w) as [t r]. simpl in *. subst t r.
    reflexivity.
  - destruct (graphql w GRAPHQL_URL (queryVariables w)) as [resp|e'] eqn:Hg.
    + left. exists resp. split; [reflexivity|].
      rewrite (fetchNextClosingMarket_outcome w resp Hg) in He.
      unfold outcome in He; simpl in He.
      rewrite nextMarket_publicMarkets in He.
      pose proof (scan_FirstEarliest (publicMarkets resp)) as Hscan.
      destruct (fold_left earlier (publicMarkets resp) None); [discriminate|].
      injection He as <-. split; [exact Hscan | reflexivity].
    + right. unfold fetchNextClosingMarket, perform in He. simpl in He.
      rewrite Hg in He. simpl in He. congruence.
Qed.

Lemma X19_no_market_no_further_call_witness :
  main bothKeys offlineWorld
  = [GraphQLRequest GRAPHQL_URL (queryVariables offlineWorld);
     ConsoleError "fetch failed"]
  /\ main bothKeys (marketsWorld allPrivate)
     = [GraphQLRequest GRAPHQL_URL (queryVariables (marketsWorld allPrivate));
        ConsoleError "No active markets found."].
Proof.
  split.
  - apply (X19_no_market_no_further_call bothKeys offlineWorld "fetch failed").
    reflexivity.
  - apply (X19_no_market_no_further_call bothKeys (marketsWorld allPrivate)
             "No active markets found.").
    reflexivity.
Defined.

Section Failing.

Context {A B : Type}.

Lemma ThrowsAfter_bind_left (e : string) (tail : list Event)
  (m : IO A) (f : A -> IO B) :
  ThrowsAfter e tail m -> ThrowsAfter e tail (bind m f).
Proof.
  intros [He [front Ht]]. unfold ThrowsAfter, outcome, trace in *.
  destruct m as [t [a|e']]; simpl in *; [discriminate|].
  injection He as ->. split; [reflexivity | exists front; exact Ht].
Qed.

Lemma ThrowsAfter_bind_right (e : string) (tail : list Event)
  (m : IO A) (f : A -> IO B) (a : A) :
  outcome m = Ok a -> ThrowsAfter e tail (f a) -> ThrowsAfter e tail (bind m f).
Proof.
  intros Hm [He [front Ht]]. unfold ThrowsAfter, outcome, trace in *.
  destruct m as [t [a'|e']]; simpl in *; [|discriminate].
  injection Hm as ->. destruct (f a) as [t' r']. simpl in *. subst.
  split; [reflexivity|]. exists (t ++ front)%list. now rewrite app_assoc.
Qed.

End Failing.

(** X20. A quoter failure is written to the error console twice: once by
    [getQuote] itself (line 135) and once more by the handler at the end of
    the top-level block, with the same text; nothing goes on chain, key or no
    key. *)
Theorem X20_quoter_failure_is_printed_twice :
  forall (env : Env) (w : World) (market : MarketType) (prediction : Z)
         (marketGroupAddress : Address) (response : HttpResponse),
    outcome (fetchNextClosingMarket w) = Ok market ->
    outcome (getPrediction env w (question market)) = Ok prediction ->
    outcome (groupAddressOf market) = Ok marketGroupAddress ->
    httpGet w (quoterUrl marketGroupAddress (marketId market) prediction) = Ok response ->
    ok response = false ->
    (exists front,
        main env w
        = (front ++ [ConsoleError (quoterFailure response);
                     ConsoleError (quoterFailure response)])%list)
    /\ forall e, In e (main env w) -> isOnChain e = false.
Proof.
  intros env w market prediction marketGroupAddress response Hm Hp Ha Hget Hok.
  assert (Hq : getQuote w marketGroupAddress (marketId market) prediction
               = ([HttpGet (quoterUrl marketGroupAddress (marketId market) prediction);
                   ConsoleError (quoterFailure response)],
                  Throw (quoterFailure response))).
  { unfold getQuote, perform. simpl. rewrite Hget, Hok. reflexivity. }
  assert (Hrun : ThrowsAfter (quoterFailure response)
                   [ConsoleError (quoterFailure response)] (run env w)).
  { unfold run.
    eapply ThrowsAfter_bind_right; [exact Hm|].
    do 7 (eapply ThrowsAfter_bind_right; [reflexivity|]).
    eapply ThrowsAfter_bind_right; [exact Hp|].
    do 4 (eapply ThrowsAfter_bind_right; [reflexivity|]).
    eapply ThrowsAfter_bind_right; [exact Ha|].
    apply ThrowsAfter_bind_left. rewrite Hq.
    split; [reflexivity|]. exists [HttpGet (quoterUrl marketGroupAddress (marketId market) prediction)].
    reflexivity. }
  destruct Hrun as [He [front Ht]]. split.
  - exists front. unfold main, outcome, trace in *.
    destruct (run env w) as [t r]. simpl in *. subst t r.
    now rewrite <- app_assoc.
  - intros e Hin.
    apply main_events in Hin as [Hin|Hin]; [destruct e; (discriminate || reflexivity)|].
    apply run_events in Hin
      as [H|[H|[(m1 & Hm1 & H)|[(m1 & p1 & a1 & Hm1 & Hp1 & Ha1 & H)
                                |(m1 & p1 & a1 & s1 & Hm1 & Hp1 & Ha1 & Hq1 & _ & _)]]]].
    + destruct e; (discriminate || reflexivity).
    + subst e. reflexivity.
    + apply getPrediction_events in H as [H|[-> _]];
        [destruct e; (discriminate || reflexivity) | reflexivity].
    + apply getQuote_events in H as [H| ->];
        [destruct e; (discriminate || reflexivity) | reflexivity].
    + rewrite Hm in Hm1. injection Hm1 as <-.
      rewrite Hp in Hp1. injection Hp1 as <-.
      rewrite Ha in Ha1. injection Ha1 as <-.
      rewrite Hq in Hq1. discriminate Hq1.
Qed.

Lemma X20_quoter_failure_is_printed_twice_witness :
  (exists front,
      main bothKeys quoterDownWorld
      = (front ++ [ConsoleError "Quoter API request failed with status 500: Internal Server Error";
                   ConsoleError "Quoter API request failed with status 500: Internal Server Error"])%list)
  /\ forall e, In e (main bothKeys quoterDownWorld) -> isOnChain e = false.
Proof.
  apply (X20_quoter_failure_is_printed_twice bothKeys quoterDownWorld
           closingAt150 (10 ^ 18) "0xGroup"
           {| ok := false; status := 500; text := "Internal Server Error";
              json := Ok (mkQuote "1") |});
    reflexivity.
Defined.

(** X21. Without an OPENAI_API_KEY the program always bets on yes: every
    quoter request of such a run carries the prediction 10^18, that is the
    expected price "1", and no chat call is made. *)
Theorem X21_without_model_key_the_bet_is_yes :
  forall (env : Env) (w : World),
    isSet (OPENAI_API_KEY env) = false ->
    (forall url, In (HttpGet url) (main env w) ->
                 exists market marketGroupAddress,
                   outcome (fetchNextClosingMarket w) = Ok market
                   /\ outcome (groupAddressOf market) = Ok marketGroupAddress
                   /\ url = quoterUrl marketGroupAddress (marketId market) (10 ^ 18)
                   /\ url = quoterUrlPrefix marketGroupAddress (marketId market) ++ "1")
    /\ forall e, In e (main env w) -> isChatCall e = false.
Proof.
  intros env w Hkey. split.
  - intros url H.
    apply main_events in H as [H|H]; [discriminate H|].
    apply run_events in H
      as [H|[H|[(market & Hm & H)|[(market & p & a & Hm & Hp & Ha & H)
                                  |(market & p & a & s & Hm & Hp & Ha & Hq & Hk & H)]]]].
    + discriminate H.
    + discriminate H.
    + apply getPrediction_events in H as [H|[H _]]; discriminate H.
    + apply getQuote_events in H as [H|H]; [discriminate H|].
      injection H as ->.
      rewrite (getPrediction_without_key env w (question market) Hkey) in Hp.
      injection Hp as <-.
      exists market, a. split; [exact Hm|]. split; [exact Ha|].
      split; [reflexivity|].
      rewrite quoterUrl_split.
      assert (E1 : expectedPriceDecimalString parseEther_1 = "1")
        by (vm_compute; reflexivity).
      now rewrite E1.
    + apply trade_events in H as [H|H]; discriminate H.
  - intros e H.
    apply main_events in H as [H|H]; [destruct e; (discriminate || reflexivity)|].
    apply run_events in H
      as [H|[H|[(market & Hm & H)|[(market & p & a & Hm & Hp & Ha & H)
                                  |(market & p & a & s & Hm & Hp & Ha & Hq & Hk & H)]]]].
    + destruct e; (discriminate || reflexivity).
    + subst e. reflexivity.
    + apply getPrediction_events in H as [H|[_ Hset]];
        [destruct e; (discriminate || reflexivity) | congruence].
    + apply getQuote_events in H as [H| ->];
        [destruct e; (discriminate || reflexivity) | reflexivity].
    + apply trade_events in H as [H|H]; destruct e; (discriminate || reflexivity).
Qed.

Lemma X21_without_model_key_the_bet_is_yes_witness :
  exists market marketGroupAddress,
    outcome (fetchNextClosingMarket (answerWorld "No.")) = Ok market
    /\ outcome (groupAddressOf market) = Ok marketGroupAddress
    /\ quoterUrlPrefix "0xGroup" 1 ++ "1"
       = quoterUrl marketGroupAddress (marketId market) (10 ^ 18)
    /\ quoterUrlPrefix "0xGroup" 1 ++ "1"
       = quoterUrlPrefix marketGroupAddress (marketId market) ++ "1".
Proof.
  apply (proj1 (X21_without_model_key_the_bet_is_yes
                  noKeys (answerWorld "No.") eq_refl)
               (quoterUrlPrefix "0xGroup" 1 ++ "1")).
  vm_compute. repeat (first [left; reflexivity | right]).
Defined.

